(** * nestor: a Jenkins client (the class [Jenkins] and lib/http/view.js)

    A shallow embedding of the client in Rocq.

    - JavaScript strings are modelled by [string]: sequences of 8-bit code
      units.  Within that range the line terminators of ECMAScript regular
      expressions are LF and CR, and [toUpperCase] acts on the letters a-z.
    - JavaScript objects used as dictionaries (the status-handler table, the
      response headers, the criteria of [buildBy], the table [STATUS]) are
      finite maps.
    - The client instance is a record; every operation takes the instance and
      returns the mutated instance together with what it sent.
    - Asynchronous flows (console streaming, the fan-out of [buildBy], the
      discovery race) are run against the sequence of things the environment
      answers, and yield the trace of what the code did. *)

From Stdlib Require Import String Ascii List ZArith Bool Lia.
From stdpp Require Import gmap strings list fin_maps.

Open Scope string_scope.
Open Scope Z_scope.

#[local] Arguments String.append !_ _ / : simpl nomatch.

(** ** JavaScript strings *)

Module JsString.

(** [s.length === 0], the only falsy string. *)
Definition is_empty (s : string) : bool :=
  match s with
  | EmptyString => true
  | String _ _ => false
  end.

Definition is_line_terminator (c : ascii) : bool :=
  (Ascii.eqb c "010" || Ascii.eqb c "013")%char.

Fixpoint no_line_terminator (s : string) : bool :=
  match s with
  | EmptyString => true
  | String c s' => negb (is_line_terminator c) && no_line_terminator s'
  end.

(** [s.indexOf(needle) !== -1] *)
Fixpoint includes (needle s : string) : bool :=
  String.prefix needle s ||
  match s with
  | EmptyString => false
  | String _ s' => includes needle s'
  end.

Definition upper_char (c : ascii) : ascii :=
  let n := nat_of_ascii c in
  if (Nat.leb 97 n && Nat.leb n 122)%bool then ascii_of_nat (n - 32) else c.

(** [s.toUpperCase()] *)
Fixpoint toUpperCase (s : string) : string :=
  match s with
  | EmptyString => EmptyString
  | String c s' => String (upper_char c) (toUpperCase s')
  end.

(** [s.split(sep)] for a one-character separator: the pieces between the
    separators, of which there is always at least one. *)
Fixpoint split (sep : ascii) (s : string) : list string :=
  match s with
  | EmptyString => [EmptyString]
  | String c s' =>
      if Ascii.eqb c sep then EmptyString :: split sep s'
      else match split sep s' with
           | piece :: pieces => String c piece :: pieces
           | [] => [String c EmptyString]
           end
  end.

End JsString.

(** ** Regular expressions

    The three regular expressions of the client, [/.*\/job\//], [/\/.*/] and
    [/_anime/], are sequences of atoms (a literal character or [.]), an atom
    being possibly starred.  The matcher is the backtracking one of
    ECMAScript: a star is greedy and gives characters back one by one, and
    the search takes the leftmost start at which a match exists. *)

Module Regex.

Inductive atom : Type :=
| Lit (c : ascii)
| Dot.

Inductive item : Type :=
| One (a : atom)
| Star (a : atom).

Definition pattern : Type := list item.

Definition atom_matches (a : atom) (c : ascii) : bool :=
  match a with
  | Lit d => Ascii.eqb c d
  | Dot => negb (JsString.is_line_terminator c)
  end.

(** [a*] followed by the continuation [k]: take as many characters as
    possible, then backtrack.  The result is what is left of the subject
    after the match. *)
Fixpoint match_star (a : atom) (k : string -> option string) (s : string)
  : option string :=
  match s with
  | String c s' =>
      if atom_matches a c then
        match match_star a k s' with
        | Some rest => Some rest
        | None => k s
        end
      else k s
  | EmptyString => k s
  end.

Fixpoint match_here (p : pattern) : string -> option string :=
  match p with
  | [] => Some
  | One a :: p' =>
      fun s =>
        match s with
        | String c s' => if atom_matches a c then match_here p' s' else None
        | EmptyString => None
        end
  | Star a :: p' => match_star a (match_here p')
  end.

(** The leftmost match: what precedes it and what follows it. *)
Fixpoint search (p : pattern) (s : string) : option (string * string) :=
  match match_here p s with
  | Some rest => Some (EmptyString, rest)
  | None =>
      match s with
      | EmptyString => None
      | String c s' =>
          match search p s' with
          | Some (before, rest) => Some (String c before, rest)
          | None => None
          end
      end
  end.

(** [s.replace(p, by)] for a pattern without the [g] flag and a
    replacement without [$]: only the first match is replaced. *)
Definition replace (p : pattern) (by_ : string) (s : string) : string :=
  match search p s with
  | Some (before, rest) => before +:+ by_ +:+ rest
  | None => s
  end.

Fixpoint literal (s : string) : pattern :=
  match s with
  | EmptyString => []
  | String c s' => One (Lit c) :: literal s'
  end.

End Regex.

(** ** JavaScript values that a status can be *)

(** [_colorStatus] returns a string, except when the colour is the name of a
    member of [Object.prototype], which the lookup [STATUS[color]] finds on
    the prototype chain: then it returns that member, a function or an
    object. *)
Inductive jsval : Type :=
| Str (s : string)
| Inherited (key : string).

#[global] Instance jsval_eq_dec : EqDecision jsval.
Proof. solve_decision. Defined.

Definition Object_prototype : list string :=
  [ "constructor"; "toString"; "toLocaleString"; "valueOf"; "hasOwnProperty";
    "isPrototypeOf"; "propertyIsEnumerable"; "__proto__"; "__defineGetter__";
    "__defineSetter__"; "__lookupGetter__"; "__lookupSetter__" ].

(** [obj[key]] on an object literal whose own properties are [own]:
    [None] is [undefined]. *)
Definition get (own : gmap string string) (key : string) : option jsval :=
  match own !! key with
  | Some v => Some (Str v)
  | None => if decide (key ∈ Object_prototype) then Some (Inherited key) else None
  end.

Definition truthy (v : option jsval) : bool :=
  match v with
  | None => false
  | Some (Str s) => negb (JsString.is_empty s)
  | Some (Inherited _) => true
  end.

(** ** Status vocabulary *)

Definition STATUS : gmap string string :=
  list_to_map
    [ ("blue", "OK"); ("green", "OK"); ("grey", "ABORTED"); ("red", "FAIL");
      ("yellow", "WARN") ].

Definition _colorStatus (color : string) : jsval :=
  let color := Regex.replace (Regex.literal "_anime") EmptyString color in
  match get STATUS color with
  | Some v => if truthy (Some v) then v else Str (JsString.toUpperCase color)
  | None => Str (JsString.toUpperCase color)
  end.

(** ** The wire: errors, responses, requests *)

Inductive error : Type :=
| Error (message : string).

#[global] Instance error_eq_dec : EqDecision error.
Proof. solve_decision. Defined.

Record response : Type := Response {
  statusCode : Z;
  headers : gmap string string;
  body : string
}.

(** What a request comes back with: [err] or [result]. *)
Inductive transport : Type :=
| Failed (err : error)
| Answered (result : response).

(** A value of a query string.  [Json] stands for [JSON.stringify] of the
    parameter envelope [{ parameter: [{ name, value }, ...] }] of [build]; a
    value that is [None] is [undefined]. *)
Inductive qsval : Type :=
| QStr (s : string)
| QNum (n : Z)
| QNaN
| Json (parameter : list (string * option string)).

Definition querystring : Type := list (string * qsval).

Record request : Type := Request {
  method : string;
  target : string;
  qs : option querystring;
  sent_headers : option (list (string * string));
  sent_body : option string
}.

(** ** The client instance *)

(** The closures that the operations store in the handler table, each with
    the variables it captures.  The last three are made by ./util, which is
    not at hand: only their names are known. *)
Inductive handler : Type :=
| _authFail
| _authRequire
| build_success
| build_notFound (jobName : string)
| build_paramsRequire (jobName : string)
| consoleStream_success (url : string) (interval : option Z)
| consoleStream_notFound (jobName : string)
| stop_success
| stop_notFound (jobName : string)
| dashboard_success
| executor_success
| job_success
| job_notFound (name : string)
| queue_success
| version_success
| util_passThroughSuccess
| util_htmlError
| util_viewNotFoundError (name : string).

#[global] Instance handler_eq_dec : EqDecision handler.
Proof. solve_decision. Defined.

(** [this.opts] *)
Record Opts : Type := MkOpts {
  queryStrings : option querystring;
  opts_headers : option (list (string * string));
  opts_body : option string;
  handlers : gmap Z handler
}.

(** [this] *)
Record Jenkins : Type := MkJenkins {
  url : string;
  opts : Opts
}.

Definition with_queryStrings (q : querystring) (o : Opts) : Opts :=
  MkOpts (Some q) (opts_headers o) (opts_body o) (handlers o).

Definition with_headers (h : list (string * string)) (o : Opts) : Opts :=
  MkOpts (queryStrings o) (Some h) (opts_body o) (handlers o).

Definition with_body (b : string) (o : Opts) : Opts :=
  MkOpts (queryStrings o) (opts_headers o) (Some b) (handlers o).

(** [this.opts.handlers[code] = h] *)
Definition with_handler (code : Z) (h : handler) (o : Opts) : Opts :=
  MkOpts (queryStrings o) (opts_headers o) (opts_body o) (<[code := h]> (handlers o)).

(** [new Jenkins(url)], [env] being [process.env.JENKINS_URL]. *)
Definition new_Jenkins (url : option string) (env : option string) : Jenkins :=
  let given (s : option string) :=
    match s with
    | Some u => if JsString.is_empty u then None else Some u
    | None => None
    end in
  {| url := match given url with
            | Some u => u
            | None => match given env with
                      | Some u => u
                      | None => "http://localhost:8080"
                      end
            end;
     opts := MkOpts None None None (<[401 := _authFail]> (<[403 := _authRequire]> ∅)) |}.

(** Modelled from the spec: the transport adapter ([bagofrequest]'s
    [request(method, url, opts, cb)]), an external collaborator: it sends the
    query strings, headers and body that [opts] holds when it is called, and
    when the answer is there it invokes the handler that the table holds for
    the status code, or a default failure path. *)
Definition bag_send (method target : string) (o : Opts) : request :=
  {| method := method; target := target; qs := queryStrings o;
     sent_headers := opts_headers o; sent_body := opts_body o |}.

Inductive dispatched : Type :=
| Errored (err : error)
| Handled (h : handler) (result : response)
| Unexpected (result : response).

Definition bag_dispatch (o : Opts) (t : transport) : dispatched :=
  match t with
  | Failed err => Errored err
  | Answered result =>
      match handlers o !! statusCode result with
      | Some h => Handled h result
      | None => Unexpected result
      end
  end.

(** ** Operations: what each does to the instance, and what it sends *)

(** The parameter list of [build]: [key1=value1&key2=value2] cut at [&] and
    then at [=]. *)
Definition build_parameters (params : option string) : list (string * option string) :=
  match params with
  | Some p =>
      if JsString.is_empty p then []
      else
        (fun param =>
           let keyVal := JsString.split "=" param in
           (default EmptyString (keyVal !! 0%nat), keyVal !! 1%nat))
          <$> JsString.split "&" p
  | None => []
  end.

Definition build (self : Jenkins) (jobName : string) (params : option string)
  : Jenkins * request :=
  let o := with_queryStrings
             [("token", QStr "nestor"); ("json", Json (build_parameters params))]
             (opts self) in
  let o := with_handler 200 build_success o in
  let o := with_handler 201 build_success o in
  let o := with_handler 404 (build_notFound jobName) o in
  let o := with_handler 405 (build_paramsRequire jobName) o in
  (MkJenkins (url self) o,
   bag_send "post" (url self +:+ "/job/" +:+ jobName +:+ "/build") o).

Definition stop (self : Jenkins) (jobName : string) : Jenkins * request :=
  let o := with_handler 200 stop_success (opts self) in
  let o := with_handler 404 (stop_notFound jobName) o in
  (MkJenkins (url self) o,
   bag_send "post" (url self +:+ "/job/" +:+ jobName +:+ "/lastBuild/stop") o).

Definition dashboard (self : Jenkins) : Jenkins * request :=
  let o := with_handler 200 dashboard_success (opts self) in
  (MkJenkins (url self) o, bag_send "get" (url self +:+ "/api/json") o).

Definition executor (self : Jenkins) : Jenkins * request :=
  let o := with_queryStrings [("depth", QNum 1)] (opts self) in
  let o := with_handler 200 executor_success o in
  (MkJenkins (url self) o, bag_send "get" (url self +:+ "/computer/api/json") o).

Definition job (self : Jenkins) (name : string) : Jenkins * request :=
  let o := with_handler 200 job_success (opts self) in
  let o := with_handler 404 (job_notFound name) o in
  (MkJenkins (url self) o,
   bag_send "get" (url self +:+ "/job/" +:+ name +:+ "/api/json") o).

Definition queue (self : Jenkins) : Jenkins * request :=
  let o := with_handler 200 queue_success (opts self) in
  (MkJenkins (url self) o, bag_send "get" (url self +:+ "/queue/api/json") o).

Definition version (self : Jenkins) : Jenkins * request :=
  let o := with_handler 200 version_success (opts self) in
  (MkJenkins (url self) o, bag_send "head" (url self) o).

(** [consoleStream] up to its [process.nextTick]: the request itself leaves
    on the next tick, with [self.opts] as it is by then. *)
Definition consoleStream_url (self : Jenkins) (jobName : string) : string :=
  url self +:+ "/job/" +:+ jobName +:+ "/lastBuild/logText/progressiveText".

Definition consoleStream_setup (self : Jenkins) (jobName : string)
    (interval : option Z) : Jenkins :=
  let o := with_queryStrings [("start", QNum 0)] (opts self) in
  let o := with_handler 200
             (consoleStream_success (consoleStream_url self jobName) interval) o in
  let o := with_handler 404 (consoleStream_notFound jobName) o in
  MkJenkins (url self) o.

Definition consoleStream_nextTick (self : Jenkins) (jobName : string) : request :=
  bag_send "get" (consoleStream_url self jobName) (opts self).

(** lib/http/view.js *)
Module View.

Definition create (self : Jenkins) (name config : string) : Jenkins * request :=
  let o := with_queryStrings [("name", QStr name)] (opts self) in
  let o := with_headers [("content-type", "application/xml")] o in
  let o := with_body config o in
  let o := with_handler 200 util_passThroughSuccess o in
  let o := with_handler 400 util_htmlError o in
  (MkJenkins (url self) o, bag_send "post" (url self +:+ "/createView") o).

Definition update (self : Jenkins) (name config : string) : Jenkins * request :=
  let o := with_body config (opts self) in
  let o := with_handler 200 util_passThroughSuccess o in
  let o := with_handler 404 (util_viewNotFoundError name) o in
  (MkJenkins (url self) o,
   bag_send "post" (url self +:+ "/view/" +:+ name +:+ "/config.xml") o).

Definition fetchConfig (self : Jenkins) (name : string) : Jenkins * request :=
  let o := with_handler 200 util_passThroughSuccess (opts self) in
  let o := with_handler 404 (util_viewNotFoundError name) o in
  (MkJenkins (url self) o,
   bag_send "get" (url self +:+ "/view/" +:+ name +:+ "/config.xml") o).

End View.

(** ** What the readers parse and what they hand to the callback *)

Record job_json : Type := { job_name : string; color : string }.

Record executor_json : Type := {
  idle : bool;
  likelyStuck : bool;
  progress : Z;
  currentExecutable : option string   (* [currentExecutable.url], if any *)
}.

Record computer_json : Type := {
  displayName : string;
  executors : list executor_json
}.

(** The shapes of the JSON bodies of the server, as [JSON.parse] returns
    them.  A [jobs] or [items] that is [None] is absent from the body. *)
Inductive json : Type :=
| DashboardJson (jobs : option (list job_json))
| ComputerJson (computer : list computer_json)
| JobJson (color : string) (healthReport : list string)
| QueueJson (items : option (list string)).

(** Job summary: [{ status, name }]. *)
Record job_summary : Type := { status : jsval; name : string }.

(** Executor status: [{ idle, stuck, progress, name }]; [name] is
    [undefined] for an idle executor. *)
Record executor_status : Type := {
  st_idle : bool;
  st_stuck : bool;
  st_progress : Z;
  st_name : option string
}.

(** The second argument of a callback. *)
Inductive payload : Type :=
| Undefined
| Jobs (data : list job_summary)
| Executors (data : gmap string (list executor_status))
| JobReport (status : jsval) (reports : list string)
| QueueNames (data : list string)
| VersionNumber (v : string)
| Xml (document : string).

(** What invoking a handler does. *)
Inductive reaction : Type :=
| Calls (err : option error) (data : payload)     (* [cb(err, data)] *)
| Throws                                          (* an exception escapes *)
| Polls (url : string) (interval : option Z) (first : response)
                                                  (* the console polling loop starts *)
| Elsewhere (h : handler).                        (* a handler of ./util *)

(** [url.replace(/.*\/job\//, '').replace(/\/.*/, '')] *)
Definition running_job_name (url : string) : string :=
  let url :=
    Regex.replace (Regex.Star Regex.Dot :: Regex.literal "/job/") EmptyString url in
  Regex.replace (Regex.One (Regex.Lit "/") :: Regex.Star Regex.Dot :: []) EmptyString url.

(** One element of [data[computer.displayName]]; [None] when reading
    [currentExecutable.url] of a busy executor throws. *)
Definition executor_entry (e : executor_json) : option executor_status :=
  if idle e then
    Some {| st_idle := idle e; st_stuck := likelyStuck e;
            st_progress := progress e; st_name := None |}
  else
    match currentExecutable e with
    | Some u =>
        Some {| st_idle := idle e; st_stuck := likelyStuck e;
                st_progress := progress e; st_name := Some (running_job_name u) |}
    | None => None
    end.

(** [computer.executors.forEach(...)]: the entries in order, unless one
    throws. *)
Fixpoint executor_entries (es : list executor_json) : option (list executor_status) :=
  match es with
  | [] => Some []
  | e :: es' =>
      match executor_entry e with
      | Some st =>
          match executor_entries es' with
          | Some sts => Some (st :: sts)
          | None => None
          end
      | None => None
      end
  end.

(** [computers.forEach(...)] over [data]: a later computer of the same
    display name replaces the list of the earlier one. *)
Fixpoint executor_data (computers : list computer_json)
    (data : gmap string (list executor_status))
  : option (gmap string (list executor_status)) :=
  match computers with
  | [] => Some data
  | c :: cs =>
      match executor_entries (executors c) with
      | Some sts => executor_data cs (<[displayName c := sts]> data)
      | None => None
      end
  end.

Definition dashboard_data (jobs : option (list job_json)) : list job_summary :=
  match jobs with
  | Some js => (fun j => {| status := _colorStatus (color j); name := job_name j |}) <$> js
  | None => []
  end.

Section Handlers.

(** [JSON.parse]; [None] when it throws. *)
Variable JSON_parse : string -> option json.

(** The error of the adapter's default failure path, for an answer whose
    status code has no handler. *)
Variable unexpected : response -> error.

(** [handler(result, cb)] *)
Definition react (h : handler) (result : response) : reaction :=
  match h with
  | _authFail =>
      Calls (Some (Error "Authentication failed - incorrect username and/or password in Jenkins URL")) Undefined
  | _authRequire =>
      Calls (Some (Error "Jenkins requires authentication - set username and password in Jenkins URL")) Undefined
  | build_success => Calls None Undefined
  | build_notFound jobName =>
      Calls (Some (Error ("Job " +:+ jobName +:+ " does not exist"))) Undefined
  | build_paramsRequire jobName =>
      Calls (Some (Error ("Job " +:+ jobName +:+ " requires build parameters"))) Undefined
  | consoleStream_success url interval => Polls url interval result
  | consoleStream_notFound jobName =>
      Calls (Some (Error ("Job " +:+ jobName +:+ " does not exist"))) Undefined
  | stop_success => Calls None Undefined
  | stop_notFound jobName =>
      Calls (Some (Error ("Job " +:+ jobName +:+ " does not exist"))) Undefined
  | dashboard_success =>
      match JSON_parse (body result) with
      | Some (DashboardJson jobs) => Calls None (Jobs (dashboard_data jobs))
      | Some _ => Calls None (Jobs [])
      | None => Throws
      end
  | executor_success =>
      match JSON_parse (body result) with
      | Some (ComputerJson computers) =>
          match executor_data computers ∅ with
          | Some data => Calls None (Executors data)
          | None => Throws
          end
      | _ => Throws
      end
  | job_success =>
      match JSON_parse (body result) with
      | Some (JobJson color healthReport) =>
          Calls None (JobReport (_colorStatus color) healthReport)
      | _ => Throws
      end
  | job_notFound name =>
      Calls (Some (Error ("Job " +:+ name +:+ " does not exist"))) Undefined
  | queue_success =>
      match JSON_parse (body result) with
      | Some (QueueJson (Some items)) => Calls None (QueueNames items)
      | Some _ => Calls None (QueueNames [])
      | None => Throws
      end
  | version_success =>
      match headers result !! "x-jenkins" with
      | Some v =>
          if JsString.is_empty v then Calls (Some (Error "Not a Jenkins server")) Undefined
          else Calls None (VersionNumber v)
      | None => Calls (Some (Error "Not a Jenkins server")) Undefined
      end
  | util_passThroughSuccess | util_htmlError | util_viewNotFoundError _ => Elsewhere h
  end.

(** What [bag.request] does with the answer to a request, the handler
    table being [o] by then. *)
Definition deliver (o : Opts) (t : transport) : reaction :=
  match bag_dispatch o t with
  | Errored err => Calls (Some err) Undefined
  | Handled h result => react h result
  | Unexpected result => Calls (Some (unexpected result)) Undefined
  end.

(** *** Traces *)

(** Modelled from the spec: what a [ConsoleStream] (./consolestream, a
    readable stream) hands to its consumer, who sees the events in the order
    in which they are emitted. *)
Inductive stream_event : Type :=
| OnData (chunk : string)      (* ['data'] *)
| OnEnd.                       (* ['end'] *)

(** What the code does that the outside can see, in order. *)
Inductive action : Type :=
| Sends (r : request)                           (* an HTTP request leaves *)
| Emits (e : stream_event)                      (* [stream.emit(...)] *)
| SetTimeout (ms : Z)
| Callback (err : option error) (data : payload)  (* the caller's [cb] *)
| ConsoleLog (line : string)
| Raises                                        (* an uncaught exception *)
| Defers (h : handler)                          (* a handler of ./util runs *)
| SocketSend (message : string) (port : Z) (host : string)
| SocketClose
| ParseString (message : string).

Definition is_request (a : action) : option request :=
  match a with Sends r => Some r | _ => None end.

Definition is_event (a : action) : option stream_event :=
  match a with Emits e => Some e | _ => None end.

Definition is_callback (a : action) : option (option error * payload) :=
  match a with Callback err d => Some (err, d) | _ => None end.

Definition requests (tr : list action) : list request := omap is_request tr.
Definition events (tr : list action) : list stream_event := omap is_event tr.
Definition callbacks (tr : list action) : list (option error * payload) :=
  omap is_callback tr.

(** *** Console stream *)

Definition is_whitespace (c : ascii) : bool :=
  let n := nat_of_ascii c in
  (Nat.leb 9 n && Nat.leb n 13 || Nat.eqb n 32 || Nat.eqb n 160)%bool.

Fixpoint skip_whitespace (s : string) : string :=
  match s with
  | String c s' => if is_whitespace c then skip_whitespace s' else s
  | EmptyString => s
  end.

Definition digit (c : ascii) : option Z :=
  let n := nat_of_ascii c in
  if (Nat.leb 48 n && Nat.leb n 57)%bool then Some (Z.of_nat (n - 48)) else None.

(** The value of the longest prefix of decimal digits, if there is one. *)
Fixpoint digits (acc : option Z) (s : string) : option Z :=
  match s with
  | String c s' =>
      match digit c with
      | Some d => digits (Some (10 * default 0 acc + d)) s'
      | None => acc
      end
  | EmptyString => acc
  end.

(** [parseInt(s, 10)], for a header that may be [undefined]. *)
Definition parseInt (s : option string) : qsval :=
  match s with
  | None => QNaN
  | Some s =>
      let s := skip_whitespace s in
      let '(sign, s) :=
        match s with
        | String "-"%char s' => (-1, s')
        | String "+"%char s' => (1, s')
        | _ => (1, s)
        end in
      match digits None s with
      | Some n => QNum (sign * n)
      | None => QNaN
      end
  end.

Definition INTERVAL : Z := 1000.

(** [(opts && opts.interval) ? opts.interval : INTERVAL] *)
Definition interval_of (interval : option Z) : Z :=
  match interval with
  | Some i => if i =? 0 then INTERVAL else i
  | None => INTERVAL
  end.

(** [result.headers['x-more-data'] === 'true'] *)
Definition more_data (result : response) : bool :=
  bool_decide (headers result !! "x-more-data" = Some "true").

(** [request.get({ url, qs: { start: parseInt(...) } }, ...)] *)
Definition poll (url : string) (result : response) : request :=
  {| method := "get"; target := url;
     qs := Some [("start", parseInt (headers result !! "x-text-size"))];
     sent_headers := None; sent_body := None |}.

(** [if (result.body) { stream.emit('data', result.body); }] *)
Definition emit_body (result : response) : list action :=
  if JsString.is_empty (body result) then [] else [Emits (OnData (body result))].

(** Modelled from the spec: the loop combinator [async.whilst], an external
    collaborator, which tests, runs the iterator when the test holds, starts
    over when the iterator calls back without error, and otherwise calls the
    final callback.  The test, the iterator and the final callback are those
    of [_success]: [result] is the last answer, and [answers] is what the
    polls to come come back with.  When the answers run out, the last poll
    is still in flight. *)
Fixpoint whilst (url : string) (interval : option Z) (result : response)
    (answers : list transport) : list action :=
  if more_data result then
    Sends (poll url result) ::
    match answers with
    | [] => []
    | Failed err :: _ => [Emits OnEnd; Callback (Some err) Undefined]
    | Answered _result :: answers' =>
        emit_body _result ++
        SetTimeout (interval_of interval) :: whilst url interval _result answers'
    end
  else [Emits OnEnd; Callback None Undefined].

(** What a reaction amounts to, for the caller's [cb]. *)
Definition perform (r : reaction) (answers : list transport) : list action :=
  match r with
  | Calls err d => [Callback err d]
  | Throws => [Raises]
  | Polls url interval first => emit_body first ++ whilst url interval first answers
  | Elsewhere h => [Defers h]
  end.

(** [consoleStream(jobName, opts, cb)] run against the answers of the
    server, no other operation being started on the instance meanwhile. *)
Definition consoleStream (self : Jenkins) (jobName : string) (interval : option Z)
    (answers : list transport) : Jenkins * list action :=
  let self := consoleStream_setup self jobName interval in
  (self,
   Sends (consoleStream_nextTick self jobName) ::
   match answers with
   | [] => []
   | t :: answers' => perform (deliver (opts self) t) answers'
   end).

(** *** Triggering many builds *)

(** [filter(item)] of [buildBy]: [Object.keys(criteria).length > 0 ?
    item.status === criteria.status : true].  A criteria without [status]
    has [criteria.status] undefined, which no status equals. *)
Definition criteria_filter (criteria : gmap string jsval) (item : job_summary) : bool :=
  if decide (criteria = ∅) then true
  else bool_decide (criteria !! "status" = Some (status item)).

(** [arr.forEach(x => iterator(x, ...))] of [async.each] with the iterator
    of [buildBy]: one [self.build(item.name, null, ...)] after the other. *)
Fixpoint trigger (self : Jenkins) (items : list job_summary) : Jenkins * list request :=
  match items with
  | [] => (self, [])
  | item :: items' =>
      let '(self, r) := build self (name item) None in
      let '(self, rs) := trigger self items' in
      (self, r :: rs)
  end.

(** Modelled from the spec: the join of [async.each], an external
    collaborator (a fan-out/join: the callback fires once all have completed
    or the first error surfaces).  [answers] is the answers to the builds in
    the order they come in, each with the index of the build it answers; an
    index out of range or already answered answers nothing.  [answered] is
    the builds answered so far, [completed] counts those that succeeded, and
    [surfaced] says that an error has reached the callback. *)
Fixpoint join (o : Opts) (items : list job_summary) (answered : list nat)
    (completed : nat) (surfaced : bool) (answers : list (nat * transport))
  : list action :=
  match answers with
  | [] => []
  | (i, t) :: answers' =>
      match items !! i with
      | Some item =>
          if bool_decide (i ∈ answered) then
            join o items answered completed surfaced answers'
          else
            match deliver o t with
            | Calls None _ =>
                ConsoleLog ("Job " +:+ name item +:+ " was started successfully") ::
                (if negb surfaced && bool_decide (length items ≤ S completed)%nat
                 then [Callback None Undefined] else []) ++
                join o items (i :: answered) (S completed) surfaced answers'
            | Calls (Some err) _ =>
                (if surfaced then [] else [Callback (Some err) Undefined]) ++
                join o items (i :: answered) completed true answers'
            | Throws => Raises :: join o items (i :: answered) completed surfaced answers'
            | Polls _ _ _ => join o items (i :: answered) completed surfaced answers'
            | Elsewhere h =>
                Defers h :: join o items (i :: answered) completed surfaced answers'
            end
      | None => join o items answered completed surfaced answers'
      end
  end.

(** [buildBy(criteria, cb)] run against the answer [t] to the dashboard
    request and the answers to the builds, no other operation being started
    on the instance meanwhile. *)
Definition buildBy (self : Jenkins) (criteria : option (gmap string jsval))
    (t : transport) (answers : list (nat * transport)) : Jenkins * list action :=
  let criteria := default ∅ criteria in
  let '(self, r) := dashboard self in
  match deliver (opts self) t with
  | Calls None (Jobs data) =>
      let items := List.filter (criteria_filter criteria) data in
      match items with
      | [] => (self, [Sends r; Callback None Undefined])
      | _ :: _ =>
          let '(self, rs) := trigger self items in
          (self, Sends r :: (Sends <$> rs) ++ join (opts self) items [] 0 false answers)
      end
  | Calls None _ => (self, [Sends r; Raises])
  | Calls (Some err) _ => (self, [Sends r; Callback (Some err) Undefined])
  | Throws => (self, [Sends r; Raises])
  | Polls _ _ _ => (self, [Sends r])     (* not reached: 200 is [dashboard_success] *)
  | Elsewhere h => (self, [Sends r; Defers h])
  end.

End Handlers.

(** ** Aggregate status *)

Definition dashboard_STATUS : list string := ["FAIL"; "WARN"; "ABORTED"; "OK"].

(** [_.uniq]: the values in the order in which they first occur. *)
Definition uniq (l : list jsval) : list jsval :=
  fold_left (fun seen x => if bool_decide (x ∈ seen) then seen else (seen ++ [x])%list) l [].

(** [l.indexOf(x)] *)
Fixpoint indexOf (l : list jsval) (x : jsval) : Z :=
  match l with
  | [] => -1
  | y :: l' =>
      if decide (y = x) then 0
      else let i := indexOf l' x in if i =? -1 then -1 else i + 1
  end.

(** The [for] loop of [_dashboardStatus] from index [i] on, [order] being
    what is left of [STATUS]. *)
Fixpoint first_present (order : list string) (uniq : list jsval) : option string :=
  match order with
  | [] => None
  | s :: order' =>
      if negb (indexOf uniq (Str s) =? -1) then Some s
      else first_present order' uniq
  end.

(** [_dashboardStatus(opts, data)], [jobName] being [opts.jobName]; [None]
    is [null]. *)
Definition restrict (jobName : option string) (data : list job_summary) : list job_summary :=
  match jobName with
  | Some n =>
      if JsString.is_empty n then data
      else List.filter (fun item => String.eqb (name item) n) data
  | None => data
  end.

Definition _dashboardStatus (jobName : option string) (data : list job_summary)
  : option string :=
  first_present dashboard_STATUS (uniq (status <$> restrict jobName data)).

(** The status [s] is that of one of the jobs. *)
Definition present (s : string) (jobs : list job_summary) : Prop :=
  Str s ∈ status <$> jobs.

#[global] Instance present_dec (s : string) (jobs : list job_summary) :
  Decision (present s jobs).
Proof. unfold present. apply _. Defined.

(** ** Discovery *)

(** What the socket, the parser and the timer of [discover] can report. *)
Inductive datagram_event : Type :=
| SocketError (err : error)            (* the socket emits [error] *)
| SocketMessage (message : string)     (* the socket emits [message] *)
| Sent (err : option error)            (* the callback of [socket.send] *)
| ParserEnd (result : string)          (* the parser emits [end] *)
| TimerFired.                          (* the 5000 ms are over *)

(** The timer, which nothing clears, and the [end] listeners that the
    [message] handler has added to the parser so far. *)
Record discovery : Type := {
  timer_pending : bool;
  end_listeners : nat
}.

Definition TIMEOUT : Z := 5000.

Definition discover_step (host : string) (st : discovery) (e : datagram_event)
  : list action * discovery :=
  match e with
  | SocketError err => ([SocketClose; Callback (Some err) Undefined], st)
  | SocketMessage message =>
      ([SocketClose; ParseString message],
       {| timer_pending := timer_pending st; end_listeners := S (end_listeners st) |})
  | Sent (Some err) => ([SocketClose; Callback (Some err) Undefined], st)
  | Sent None => ([], st)
  | ParserEnd result => (repeat (Callback None (Xml result)) (end_listeners st), st)
  | TimerFired =>
      if timer_pending st then
        ([Callback (Some (Error ("Unable to find any Jenkins instance on " +:+ host)))
            Undefined],
         {| timer_pending := false; end_listeners := end_listeners st |})
      else ([], st)
  end.

Fixpoint discover_run (host : string) (st : discovery) (es : list datagram_event)
  : list action :=
  match es with
  | [] => []
  | e :: es' =>
      let '(acts, st) := discover_step host st e in
      acts ++ discover_run host st es'
  end.

(** [discover(host, cb)] run against what the environment reports. *)
Definition discover (host : string) (es : list datagram_event) : list action :=
  SocketSend "Long live Jenkins!" 33848 host :: SetTimeout TIMEOUT ::
  discover_run host {| timer_pending := true; end_listeners := 0 |} es.

(** An answer that announces more data. *)
Definition streaming (t : transport) : Prop :=
  exists result, t = Answered result /\ more_data result = true.

(** ** The operations that go through the transport adapter *)

Inductive operation : Type :=
| Build (jobName : string) (params : option string)
| ConsoleStream (jobName : string) (interval : option Z)
| Stop (jobName : string)
| Dashboard
| Executor
| Job (name : string)
| Queue
| Version
| ViewCreate (name config : string)
| ViewUpdate (name config : string)
| ViewFetchConfig (name : string).

(** The instance after the operation is started, and the request that it
    sends. *)
Definition start (op : operation) (self : Jenkins) : Jenkins * request :=
  match op with
  | Build jobName params => build self jobName params
  | ConsoleStream jobName interval =>
      let self := consoleStream_setup self jobName interval in
      (self, consoleStream_nextTick self jobName)
  | Stop jobName => stop self jobName
  | Dashboard => dashboard self
  | Executor => executor self
  | Job name => job self name
  | Queue => queue self
  | Version => version self
  | ViewCreate name config => View.create self name config
  | ViewUpdate name config => View.update self name config
  | ViewFetchConfig name => View.fetchConfig self name
  end.

(** The operations that assign [this.opts.queryStrings]. *)
Definition sets_queryStrings (op : operation) : bool :=
  match op with
  | Build _ _ | ConsoleStream _ _ | Executor | ViewCreate _ _ => true
  | _ => false
  end.

(** The status codes whose handler the operation assigns. *)
Definition assigned_codes (op : operation) : list Z :=
  match op with
  | Build _ _ => [200; 201; 404; 405]
  | ConsoleStream _ _ | Stop _ | Job _ | ViewUpdate _ _ | ViewFetchConfig _ => [200; 404]
  | Dashboard | Executor | Queue | Version => [200]
  | ViewCreate _ _ => [200; 400]
  end.

#[global] Instance datagram_event_eq_dec : EqDecision datagram_event.
Proof. solve_decision. Defined.

(** ** Sequences of operations *)

(** The operations started one after the other on the instance. *)
Fixpoint start_all (ops : list operation) (self : Jenkins) : Jenkins :=
  match ops with
  | [] => self
  | op :: ops' => start_all ops' (start op self).1
  end.

(** The operations that assign [this.opts.body]. *)
Definition sets_body (op : operation) : bool :=
  match op with
  | ViewCreate _ _ | ViewUpdate _ _ => true
  | _ => false
  end.

(** ** Build parameters *)

(** [key1=value1&key2=value2]: the format that [build] documents for its
    [params]. *)
Fixpoint parameter_string (kvs : list (string * string)) : string :=
  match kvs with
  | [] => EmptyString
  | (k, v) :: kvs' =>
      (k +:+ "=" +:+ v) +:+
      match kvs' with
      | [] => EmptyString
      | _ :: _ => "&" +:+ parameter_string kvs'
      end
  end.

(** A key and a value that hold neither [&] nor [=]. *)
Definition plain (kv : string * string) : Prop :=
  JsString.includes "&" kv.1 = false /\ JsString.includes "=" kv.1 = false /\
  JsString.includes "&" kv.2 = false /\ JsString.includes "=" kv.2 = false.

(** ** Console chunks *)

(** The ['data'] events of a sequence of answers: one per body that is not
    empty, in order. *)
Definition chunks (results : list response) : list stream_event :=
  OnData <$> List.filter (fun b => negb (JsString.is_empty b)) (body <$> results).

(** ** Monitor *)

(** The second argument of the callback of [monitor]: the aggregate status
    ([None] is [null]) when the dashboard was read, and otherwise what the
    dashboard handed over. *)
Inductive monitor_result : Type :=
| Status (s : option string)
| Passed (data : payload).

(** What one [_notify] of [monitor] ends with. *)
Inductive notified : Type :=
| Notifies (err : option error) (result : monitor_result)   (* [cb(err, result)] *)
| NotifyRaises                                              (* an exception escapes *)
| NotifyDefers (h : handler)                                (* a handler of ./util runs *)
| NotifyPolls.                                              (* a console stream starts *)

(** [self._dashboardStatus({ jobName: opts.jobName }, result)] for what a
    handler may have handed over as [result]: on a job list it is
    [_dashboardStatus]; on something that is no array, [data.filter] throws
    when a job name is given ([None]), and otherwise [_.pluck] finds no
    status, as it does in the names of the queue. *)
Definition aggregate (jobName : option string) (result : payload) : option monitor_result :=
  match result with
  | Jobs data => Some (Status (_dashboardStatus jobName data))
  | QueueNames _ => Some (Status None)
  | _ =>
      match jobName with
      | Some n => if JsString.is_empty n then Some (Status None) else None
      | None => Some (Status None)
      end
  end.

(** [_notify()] of [monitor]: one reading of the dashboard, answered by [t],
    no other operation being started on the instance meanwhile. *)
Definition monitor_notify (JSON_parse : string -> option json)
    (unexpected : response -> error) (self : Jenkins) (jobName : option string)
    (t : transport) : Jenkins * request * notified :=
  let '(self, r) := dashboard self in
  (self, r,
   match deliver JSON_parse unexpected (opts self) t with
   | Calls None result =>
       match aggregate jobName result with
       | Some status => Notifies None status
       | None => NotifyRaises
       end
   | Calls (Some err) result => Notifies (Some err) (Passed result)
   | Throws => NotifyRaises
   | Polls _ _ _ => NotifyPolls
   | Elsewhere h => NotifyDefers h
   end).

(** ** The wording of the specification, for comparison *)

Module Spec.

(** "stripping everything before the first [/job/] segment": what follows
    the first [/job/], if there is one. *)
Fixpoint after_first_job (url : string) : option string :=
  if String.prefix "/job/" url then Some (String.substring 5 (String.length url - 5) url)
  else match url with
       | String _ url' => after_first_job url'
       | EmptyString => None
       end.

(** "and after the next [/]" *)
Fixpoint upto_slash (s : string) : string :=
  match s with
  | String c s' => if Ascii.eqb c "/" then EmptyString else String c (upto_slash s')
  | EmptyString => EmptyString
  end.

Definition running_job_name (url : string) : string :=
  upto_slash (default url (after_first_job url)).

(** "Strips an [_anime] suffix": the token without the suffix, if it ends
    with it. *)
Fixpoint strip_suffix (suffix token : string) : string :=
  if String.eqb token suffix then EmptyString
  else match token with
       | String c token' => String c (strip_suffix suffix token')
       | EmptyString => EmptyString
       end.

(** "Known tokens {blue, green} to OK, {grey} to ABORTED, {red} to FAIL,
    {yellow} to WARN", a status being the string that the code has for
    it. *)
Definition known (token : string) : option string :=
  if String.eqb token "blue" || String.eqb token "green" then Some "OK"
  else if String.eqb token "grey" then Some "ABORTED"
  else if String.eqb token "red" then Some "FAIL"
  else if String.eqb token "yellow" then Some "WARN"
  else None.

(** "any other token maps to UNKNOWN(uppercased raw token)" *)
Definition classify (rawToken : string) : jsval :=
  match known (strip_suffix "_anime" rawToken) with
  | Some s => Str s
  | None => Str (JsString.toUpperCase rawToken)
  end.

End Spec.

(** * Properties *)

(** A closed decidable proposition, by evaluation. *)
Ltac decided := apply (bool_decide_unpack _); vm_compute; exact I.

(** ** Strings and regular expressions *)

Lemma append_empty (s : string) : s +:+ EmptyString = s.
Proof. induction s as [|c s IH]; simpl; [reflexivity | now f_equal]. Qed.

Lemma append_assoc (s t u : string) : (s +:+ t) +:+ u = s +:+ t +:+ u.
Proof. induction s as [|c s IH]; simpl; [reflexivity | now f_equal]. Qed.

Lemma no_line_terminator_app (s t : string) :
  JsString.no_line_terminator (s +:+ t) =
  JsString.no_line_terminator s && JsString.no_line_terminator t.
Proof.
  induction s as [|c s IH]; simpl; [reflexivity |].
  now rewrite IH, andb_assoc.
Qed.

(** A needle that occurs nowhere is a prefix of no suffix. *)
Lemma includes_suffix (needle u t : string) :
  JsString.includes needle (u +:+ t) = false -> String.prefix needle t = false.
Proof.
  induction u as [|c u IH]; simpl.
  - destruct t; simpl; intros H; apply orb_false_elim in H; tauto.
  - intros H. apply orb_false_elim in H. tauto.
Qed.

Lemma match_literal (l s : string) :
  Regex.match_here (Regex.literal l) (l +:+ s) = Some s.
Proof.
  induction l as [|c l IH]; simpl; [reflexivity |].
  now rewrite Ascii.eqb_refl.
Qed.

Lemma match_literal_none (l t : string) :
  String.prefix l t = false -> Regex.match_here (Regex.literal l) t = None.
Proof.
  revert t. induction l as [|c l IH]; intros t; simpl.
  - destruct t; discriminate.
  - destruct t as [|d t]; [reflexivity |]. simpl.
    destruct (ascii_dec c d) as [->|Hne].
    + rewrite Ascii.eqb_refl. apply IH.
    + intros _. destruct (Ascii.eqb_spec d c) as [->|]; [contradiction | reflexivity].
Qed.

(** A star whose continuation fails on every suffix fails. *)
Lemma match_star_none (a : Regex.atom) (k : string -> option string) (s : string) :
  (forall u t, s = u +:+ t -> k t = None) -> Regex.match_star a k s = None.
Proof.
  induction s as [|c s IH]; intros H; simpl.
  - now apply (H EmptyString).
  - rewrite IH.
    + destruct (Regex.atom_matches a c); now apply (H EmptyString).
    + intros u t ->. now apply (H (String c u)).
Qed.

(** A star gives everything back when its continuation fails further on. *)
Lemma match_star_back (a : Regex.atom) (k : string -> option string) (s : string) :
  (forall c u t, s = String c u +:+ t -> k t = None) -> Regex.match_star a k s = k s.
Proof.
  destruct s as [|c s]; intros H; simpl; [reflexivity |].
  rewrite match_star_none.
  - now destruct (Regex.atom_matches a c).
  - intros u t ->. now apply (H c u).
Qed.

(** A greedy [.*] runs over a prefix without line terminators when a match
    exists behind it. *)
Lemma match_star_over (k : string -> option string) (pre s rest : string) :
  JsString.no_line_terminator pre = true ->
  Regex.match_star Regex.Dot k s = Some rest ->
  Regex.match_star Regex.Dot k (pre +:+ s) = Some rest.
Proof.
  intros Hpre Hs. induction pre as [|c pre IH]; simpl in *; [exact Hs |].
  apply andb_true_iff in Hpre as [-> Hpre]. now rewrite IH.
Qed.

(** [.*] takes a whole string without line terminators. *)
Lemma match_star_all (s : string) :
  JsString.no_line_terminator s = true ->
  Regex.match_star Regex.Dot Some s = Some EmptyString.
Proof.
  induction s as [|c s IH]; simpl; [reflexivity |].
  intros H. apply andb_true_iff in H as [-> H]. now rewrite IH.
Qed.

Lemma search_here (p : Regex.pattern) (s rest : string) :
  Regex.match_here p s = Some rest -> Regex.search p s = Some (EmptyString, rest).
Proof. intros H. destruct s; cbn [Regex.search]; now rewrite H. Qed.

(** A pattern that starts with the character [c] matches nowhere in a
    string without [c]. *)
Lemma search_skip (p : Regex.pattern) (c : ascii) (before s : string) :
  JsString.includes (String c EmptyString) before = false ->
  Regex.search (Regex.One (Regex.Lit c) :: p) (before +:+ s) =
  match Regex.search (Regex.One (Regex.Lit c) :: p) s with
  | Some (b, rest) => Some (before +:+ b, rest)
  | None => None
  end.
Proof.
  intros Hb. induction before as [|d before IH].
  - simpl (EmptyString +:+ s). now destruct (Regex.search _ s) as [[b rest]|].
  - simpl in Hb. apply orb_false_elim in Hb as [Hd Hb].
    change (String d before +:+ s) with (String d (before +:+ s)).
    cbn [Regex.search Regex.match_here Regex.atom_matches].
    destruct (Ascii.eqb_spec d c) as [->|Hne].
    + destruct (ascii_dec c c); [|contradiction]. destruct before; discriminate.
    + rewrite IH by exact Hb.
      now destruct (Regex.search _ s) as [[b rest]|].
Qed.

(** [/.*\/job\//] removes everything up to the end of the last [/job/]. *)
Lemma replace_upto_last_job (pre tail : string) :
  JsString.no_line_terminator pre = true ->
  JsString.includes "/job/" ("/" +:+ tail) = false ->
  Regex.replace (Regex.Star Regex.Dot :: Regex.literal "/job/") EmptyString
    (pre +:+ "/job/" +:+ tail) = tail.
Proof.
  intros Hpre Hlast. unfold Regex.replace.
  assert (Regex.match_here (Regex.Star Regex.Dot :: Regex.literal "/job/")
            (pre +:+ "/job/" +:+ tail) = Some tail) as Hm.
  { cbn [Regex.match_here]. apply match_star_over; [exact Hpre |].
    rewrite match_star_back; [apply (match_literal "/job/") |].
    intros c u t Heq. apply match_literal_none.
    injection Heq as _ Heq.
    destruct u as [|c1 [|c2 [|c3 u]]]; simpl in Heq.
    - subst t. reflexivity.
    - injection Heq as _ Heq. subst t. reflexivity.
    - injection Heq as _ _ Heq. subst t. reflexivity.
    - injection Heq as _ _ _ Heq.
      apply (includes_suffix "/job/" u t). now rewrite <- Heq. }
  now rewrite (search_here _ _ _ Hm).
Qed.

(** [/\/.*/] removes everything from the first [/] on. *)
Lemma replace_from_slash (name rest : string) :
  JsString.includes "/" name = false ->
  JsString.no_line_terminator rest = true ->
  Regex.replace (Regex.One (Regex.Lit "/") :: Regex.Star Regex.Dot :: []) EmptyString
    (name +:+ "/" +:+ rest) = name.
Proof.
  intros Hname Hrest. unfold Regex.replace.
  rewrite search_skip by exact Hname.
  change ("/" +:+ rest) with (String "/" rest).
  cbn [Regex.search Regex.match_here Regex.atom_matches].
  rewrite Ascii.eqb_refl, match_star_all by exact Hrest.
  now rewrite !append_empty.
Qed.

(** ** Executor reader *)

(** The running-job name is the segment after the last [/job/]. *)
Lemma running_job_name_last (pre name rest : string) :
  JsString.no_line_terminator pre = true ->
  JsString.no_line_terminator rest = true ->
  JsString.includes "/" name = false ->
  JsString.includes "/job/" ("/" +:+ name +:+ "/" +:+ rest) = false ->
  running_job_name (pre +:+ "/job/" +:+ name +:+ "/" +:+ rest) = name.
Proof.
  intros Hpre Hrest Hname Hlast. unfold running_job_name.
  rewrite replace_upto_last_job by assumption.
  now apply replace_from_slash.
Qed.

(** C1, as amended: for every non-idle executor whose current executable
    URL has no line terminator, the running-job name that the executor
    reader produces is the segment after the last [/job/] of the URL, up to
    the next [/].  For the url [.../job/myjob/3/] it is [myjob], and for the
    nested url [.../job/folder/job/myjob/3/] it is [myjob] too. *)
Theorem executor_name_after_last_job :
  (forall (e : executor_json) (pre name rest : string),
      idle e = false ->
      currentExecutable e = Some (pre +:+ "/job/" +:+ name +:+ "/" +:+ rest) ->
      JsString.no_line_terminator pre = true ->
      JsString.no_line_terminator rest = true ->
      JsString.includes "/" name = false ->
      JsString.includes "/job/" ("/" +:+ name +:+ "/" +:+ rest) = false ->
      st_name <$> executor_entry e = Some (Some name)) /\
  (forall pre : string,
      JsString.no_line_terminator pre = true ->
      running_job_name (pre +:+ "/job/myjob/3/") = "myjob" /\
      running_job_name (pre +:+ "/job/folder/job/myjob/3/") = "myjob").
Proof.
  split.
  - intros e pre name rest Hidle Hurl Hpre Hrest Hname Hlast.
    unfold executor_entry. rewrite Hidle, Hurl. cbn [fmap option_fmap option_map].
    now rewrite running_job_name_last.
  - intros pre Hpre. split.
    + now apply (running_job_name_last pre "myjob" "3/").
    + replace (pre +:+ "/job/folder/job/myjob/3/")
        with ((pre +:+ "/job/folder") +:+ "/job/" +:+ "myjob" +:+ "/" +:+ "3/")
        by now rewrite append_assoc.
      apply running_job_name_last; try reflexivity.
      rewrite no_line_terminator_app, Hpre. reflexivity.
Qed.

Lemma executor_name_after_last_job_witness :
  st_name <$> executor_entry
    {| idle := false; likelyStuck := false; progress := 42;
       currentExecutable := Some "http://localhost:8080/job/folder/job/myjob/3/" |} =
  Some (Some "myjob").
Proof.
  apply (proj1 executor_name_after_last_job _ "http://localhost:8080/job/folder" "myjob" "3/");
    reflexivity.
Defined.

(** C1, as stated, fails: for the nested url the reader yields [myjob], the
    segment after the last [/job/], whereas the segment after the first
    [/job/] is [folder]. *)
Lemma executor_name_not_after_first_job :
  st_name <$> executor_entry
    {| idle := false; likelyStuck := false; progress := 42;
       currentExecutable := Some "http://localhost:8080/job/folder/job/myjob/3/" |} =
  Some (Some "myjob") /\
  Spec.running_job_name "http://localhost:8080/job/folder/job/myjob/3/" = "folder" /\
  running_job_name "http://localhost:8080/job/folder/job/myjob/3/" <>
  Spec.running_job_name "http://localhost:8080/job/folder/job/myjob/3/".
Proof. repeat split. discriminate. Qed.

(** The list of a computer that is alone of its name holds the entries of
    its executors, in order. *)
Lemma executor_data_one (c : computer_json) (sts : list executor_status) :
  executor_entries (executors c) = Some sts ->
  executor_data [c] ∅ = Some {[ displayName c := sts ]}.
Proof. intros H. simpl. now rewrite H. Qed.

(** ** Status vocabulary *)

Example colorStatus_blue : _colorStatus "blue" = Str "OK".
Proof. vm_compute. reflexivity. Qed.

Example colorStatus_red_anime : _colorStatus "red_anime" = Str "FAIL".
Proof. vm_compute. reflexivity. Qed.

Example colorStatus_purple : _colorStatus "purple" = Str "PURPLE".
Proof. vm_compute. reflexivity. Qed.

(** A literal that occurs nowhere is found nowhere. *)
Lemma search_literal_none (l s : string) :
  JsString.includes l s = false -> Regex.search (Regex.literal l) s = None.
Proof.
  induction s as [|c s IH]; cbn [JsString.includes Regex.search]; intros H;
    apply orb_false_elim in H as [Hp Hs].
  - now rewrite (match_literal_none _ _ Hp).
  - now rewrite (match_literal_none _ _ Hp), (IH Hs).
Qed.

(** [_anime] does not overlap itself: it starts nowhere in a part that is
    followed by [_anime], unless it occurs in that part. *)
Lemma anime_no_overlap (t : string) :
  t <> EmptyString ->
  String.prefix "_anime" t = false ->
  String.prefix "_anime" (t +:+ "_anime") = false.
Proof.
  intros Hne Hp.
  destruct t as [|c1 t]; [contradiction |]. cbn [String.prefix String.append] in *.
  destruct (ascii_dec "_" c1); [| reflexivity].
  destruct t as [|c2 t]; [reflexivity |]. cbn [String.prefix String.append] in *.
  destruct (ascii_dec "a" c2); [| reflexivity].
  destruct t as [|c3 t]; [reflexivity |]. cbn [String.prefix String.append] in *.
  destruct (ascii_dec "n" c3); [| reflexivity].
  destruct t as [|c4 t]; [reflexivity |]. cbn [String.prefix String.append] in *.
  destruct (ascii_dec "i" c4); [| reflexivity].
  destruct t as [|c5 t]; [reflexivity |]. cbn [String.prefix String.append] in *.
  destruct (ascii_dec "m" c5); [| reflexivity].
  destruct t as [|c6 t]; [reflexivity |]. cbn [String.prefix String.append] in *.
  destruct (ascii_dec "e" c6); [| reflexivity].
  destruct t; discriminate.
Qed.

(** The first [_anime] of a token that ends with its only [_anime] is that
    suffix. *)
Lemma search_anime_suffix (base : string) :
  JsString.includes "_anime" base = false ->
  Regex.search (Regex.literal "_anime") (base +:+ "_anime") = Some (base, EmptyString).
Proof.
  induction base as [|c base IH]; intros H.
  - reflexivity.
  - cbn [JsString.includes] in H. apply orb_false_elim in H as [Hp Hs].
    change (String c base +:+ "_anime") with (String c (base +:+ "_anime")).
    cbn [Regex.search].
    rewrite (match_literal_none "_anime" (String c (base +:+ "_anime"))).
    + now rewrite (IH Hs).
    + now apply (anime_no_overlap (String c base)).
Qed.

(** The own properties of [STATUS] are the known tokens. *)
Lemma STATUS_lookup (token : string) : STATUS !! token = Spec.known token.
Proof.
  unfold STATUS, Spec.known. cbn [list_to_map foldr fst snd uncurry].
  destruct (String.eqb_spec token "blue") as [-> | Hblue]; [reflexivity |].
  destruct (String.eqb_spec token "green") as [-> | Hgreen]; [reflexivity |].
  destruct (String.eqb_spec token "grey") as [-> | Hgrey]; [reflexivity |].
  destruct (String.eqb_spec token "red") as [-> | Hred]; [reflexivity |].
  destruct (String.eqb_spec token "yellow") as [-> | Hyellow]; [reflexivity |].
  cbn [orb]. now rewrite !lookup_insert_ne, lookup_empty by congruence.
Qed.

Lemma known_truthy (token s : string) :
  Spec.known token = Some s -> JsString.is_empty s = false.
Proof.
  unfold Spec.known.
  repeat (match goal with |- context [if ?b then _ else _] => destruct b end);
    intros [= <-]; reflexivity.
Qed.

(** The status of a token from which the suffix has been removed. *)
Lemma colorStatus_stripped (color base : string) :
  Regex.replace (Regex.literal "_anime") EmptyString color = base ->
  base ∉ Object_prototype ->
  _colorStatus color =
  match Spec.known base with
  | Some s => Str s
  | None => Str (JsString.toUpperCase base)
  end.
Proof.
  intros Hstrip Hproto. unfold _colorStatus, get. rewrite Hstrip, STATUS_lookup.
  destruct (Spec.known base) as [s|] eqn:Hknown.
  - cbn [truthy]. now rewrite (known_truthy base s Hknown).
  - now rewrite decide_False by exact Hproto.
Qed.

(** C5, as amended: for every token in which [_anime] occurs at most once,
    as a suffix, and whose remainder does not name a member of
    [Object.prototype], [_colorStatus] removes the suffix and maps blue and
    green to OK, grey to ABORTED, red to FAIL, yellow to WARN, and any other
    token to its remainder in upper case (not to the raw token in upper
    case).  So blue is OK, red_anime is FAIL and purple is PURPLE. *)
Theorem colorStatus_classifies :
  (forall base : string,
      JsString.includes "_anime" base = false ->
      base ∉ Object_prototype ->
      let classified :=
        match Spec.known base with
        | Some s => Str s
        | None => Str (JsString.toUpperCase base)
        end in
      _colorStatus base = classified /\
      _colorStatus (base +:+ "_anime") = classified) /\
  _colorStatus "blue" = Str "OK" /\
  _colorStatus "red_anime" = Str "FAIL" /\
  _colorStatus "purple" = Str "PURPLE".
Proof.
  split; [| repeat split].
  intros base Habsent Hproto classified. subst classified. split.
  - apply colorStatus_stripped; [| exact Hproto].
    unfold Regex.replace. now rewrite search_literal_none.
  - apply colorStatus_stripped; [| exact Hproto].
    unfold Regex.replace. rewrite search_anime_suffix by exact Habsent.
    cbn. apply append_empty.
Qed.

Lemma colorStatus_classifies_witness :
  _colorStatus "aborted" = Str "ABORTED" /\
  _colorStatus ("aborted" +:+ "_anime") = Str "ABORTED".
Proof.
  apply (proj1 colorStatus_classifies "aborted"); [reflexivity | decided].
Defined.

(** C5, as stated, fails: of an unknown token that ends with [_anime],
    [_colorStatus] returns the remainder in upper case, and not the raw token
    in upper case. *)
Lemma colorStatus_not_raw_token :
  _colorStatus "purple_anime" = Str "PURPLE" /\
  Spec.classify "purple_anime" = Str "PURPLE_ANIME" /\
  _colorStatus "purple_anime" <> Spec.classify "purple_anime".
Proof. repeat split. vm_compute. discriminate. Qed.

(** Outside the amended claim: [_colorStatus] removes the first [_anime]
    of the token wherever it stands, although the comment in the code speaks
    of a postfix, so that [_animeblue] is classified OK; and a token that
    names a member of [Object.prototype] yields that member, found by
    [STATUS[color]] on the prototype chain, instead of a string. *)
Lemma colorStatus_removes_first_anime :
  _colorStatus "_animeblue" = Str "OK" /\
  Spec.classify "_animeblue" = Str "_ANIMEBLUE" /\
  _colorStatus "red_animex" = Str "REDX" /\
  Spec.classify "red_animex" = Str "RED_ANIMEX" /\
  _colorStatus "constructor" = Inherited "constructor" /\
  Spec.classify "constructor" = Str "CONSTRUCTOR".
Proof. repeat split; vm_compute; reflexivity. Qed.

(** ** Build trigger *)

(** C7: whatever the instance, the job and the parameters, the answer to
    [build(jobName, params, cb)] reaches [cb] with no error and no payload
    when its status is 200 or 201, with the error "Job <jobName> does not
    exist" when it is 404, and with the error "Job <jobName> requires build
    parameters" when it is 405.  The handler table is the one that [build]
    leaves: no other operation is started on the instance before the answer
    comes in. *)
Theorem build_result_by_status :
  forall (JSON_parse : string -> option json) (unexpected : response -> error)
         (self : Jenkins) (jobName : string) (params : option string)
         (hs : gmap string string) (b : string),
    let o := opts (build self jobName params).1 in
    deliver JSON_parse unexpected o (Answered (Response 200 hs b)) = Calls None Undefined /\
    deliver JSON_parse unexpected o (Answered (Response 201 hs b)) = Calls None Undefined /\
    deliver JSON_parse unexpected o (Answered (Response 404 hs b)) =
      Calls (Some (Error ("Job " +:+ jobName +:+ " does not exist"))) Undefined /\
    deliver JSON_parse unexpected o (Answered (Response 405 hs b)) =
      Calls (Some (Error ("Job " +:+ jobName +:+ " requires build parameters"))) Undefined.
Proof.
  intros. subst o. unfold deliver, bag_dispatch, build, with_handler. cbn -[String.append].
  repeat split; simplify_map_eq; reflexivity.
Qed.

(** ** The shared option object *)

Lemma start_keeps_queryStrings (op : operation) (self : Jenkins) :
  sets_queryStrings op = false ->
  queryStrings (opts (start op self).1) = queryStrings (opts self) /\
  qs (start op self).2 = queryStrings (opts self).
Proof. destruct op; try discriminate; intros _; split; reflexivity. Qed.

Lemma start_keeps_handlers (op : operation) (self : Jenkins) (code : Z) :
  code ∉ assigned_codes op ->
  handlers (opts (start op self).1) !! code = handlers (opts self) !! code.
Proof.
  intros Hcode.
  destruct op; cbn -[String.append] in *;
    repeat (rewrite lookup_insert_ne by (intros <-; apply Hcode; set_solver));
    reflexivity.
Qed.

(** C10: the operations share [this.opts].  An operation that does not
    assign the query strings leaves those of the instance in place and sends
    them; so after a [build], the requests of [dashboard], [stop], [queue]
    and [version] carry the token and the parameter JSON of that build.
    Every operation, those of the view module included, assigns its handlers
    in the table of the instance and leaves the others where they are. *)
Theorem opts_shared_by_operations :
  (forall (op : operation) (self : Jenkins),
      sets_queryStrings op = false ->
      queryStrings (opts (start op self).1) = queryStrings (opts self) /\
      qs (start op self).2 = queryStrings (opts self)) /\
  (forall (self : Jenkins) (jobName other : string) (params : option string),
      let after := (build self jobName params).1 in
      let leftover :=
        Some [("token", QStr "nestor"); ("json", Json (build_parameters params))] in
      queryStrings (opts after) = leftover /\
      qs (dashboard after).2 = leftover /\
      qs (stop after other).2 = leftover /\
      qs (queue after).2 = leftover /\
      qs (version after).2 = leftover) /\
  (forall (op : operation) (self : Jenkins) (code : Z),
      code ∉ assigned_codes op ->
      handlers (opts (start op self).1) !! code = handlers (opts self) !! code) /\
  (forall (op : operation) (self : Jenkins) (code : Z),
      code ∈ assigned_codes op ->
      is_Some (handlers (opts (start op self).1) !! code)).
Proof.
  split; [exact start_keeps_queryStrings |].
  split; [intros; repeat split |].
  split; [exact start_keeps_handlers |].
  intros op self code Hcode.
  destruct op; cbn -[String.append] in *;
    repeat (apply elem_of_cons in Hcode as [-> | Hcode]; [simplify_map_eq; eauto |]);
    now apply elem_of_nil in Hcode.
Qed.

Lemma opts_shared_by_operations_witness :
  let self := (build (new_Jenkins None None) "job1" (Some "k1=v1")).1 in
  qs (start Dashboard self).2 =
    Some [("token", QStr "nestor"); ("json", Json [("k1", Some "v1")])] /\
  handlers (opts (start (ViewCreate "view1" "<xml/>") self).1) !! 404 =
    Some (build_notFound "job1") /\
  is_Some (handlers (opts (start (ViewCreate "view1" "<xml/>") self).1) !! 400).
Proof.
  cbv zeta. split; [| split].
  - exact (proj2 (proj1 opts_shared_by_operations Dashboard _ eq_refl)).
  - rewrite (proj1 (proj2 (proj2 opts_shared_by_operations)) (ViewCreate "view1" "<xml/>") _ 404).
    + vm_compute. reflexivity.
    + decided.
  - apply (proj2 (proj2 (proj2 opts_shared_by_operations))). decided.
Defined.

(** A handler left over by an earlier operation answers for a later one:
    after [build] of a job, a dashboard request answered 404 is reported as
    that job not existing. *)
Lemma leftover_handler_answers
    (JSON_parse : string -> option json) (unexpected : response -> error)
    (self : Jenkins) (jobName : string) (params : option string)
    (hs : gmap string string) (b : string) :
  let after := (build self jobName params).1 in
  deliver JSON_parse unexpected (opts (dashboard after).1) (Answered (Response 404 hs b)) =
  Calls (Some (Error ("Job " +:+ jobName +:+ " does not exist"))) Undefined.
Proof.
  cbv zeta. unfold deliver, bag_dispatch. cbn -[String.append].
  simplify_map_eq. reflexivity.
Qed.

(** Two builds in flight share the table: the answer to the first is
    handled by the closures of the second, and a 404 for the first job is
    reported under the name of the second. *)
Lemma build_overtaken
    (JSON_parse : string -> option json) (unexpected : response -> error)
    (self : Jenkins) (first second : string) (hs : gmap string string) (b : string) :
  let self1 := (build self first None).1 in
  let self2 := (build self1 second None).1 in
  deliver JSON_parse unexpected (opts self2) (Answered (Response 404 hs b)) =
  Calls (Some (Error ("Job " +:+ second +:+ " does not exist"))) Undefined.
Proof.
  cbv zeta. unfold deliver, bag_dispatch. cbn -[String.append].
  simplify_map_eq. reflexivity.
Qed.

(** ** Console stream *)

Lemma emit_body_quiet (result : response) :
  callbacks (emit_body result) = [] /\ requests (emit_body result) = [] /\
  OnEnd ∉ events (emit_body result).
Proof.
  unfold emit_body. destruct (JsString.is_empty (body result)); cbn.
  - repeat split. apply not_elem_of_nil.
  - repeat split. intros H. apply list_elem_of_singleton in H. discriminate.
Qed.

(** After the first answer, the stream is set up by [consoleStream]'s own
    handler for 200. *)
Lemma consoleStream_first
    (JSON_parse : string -> option json) (unexpected : response -> error)
    (self : Jenkins) (jobName : string) (interval : option Z)
    (first : response) (answers : list transport) :
  statusCode first = 200 ->
  (consoleStream JSON_parse unexpected self jobName interval (Answered first :: answers)).2 =
  Sends {| method := "get"; target := consoleStream_url self jobName;
           qs := Some [("start", QNum 0)];
           sent_headers := opts_headers (opts self); sent_body := opts_body (opts self) |} ::
  (emit_body first ++ whilst (consoleStream_url self jobName) interval first answers).
Proof.
  intros Hcode. unfold consoleStream, deliver, bag_dispatch.
  cbn -[String.append whilst emit_body]. rewrite Hcode. simplify_map_eq. reflexivity.
Qed.

(** The loop over answers that all announce more data, and then a failure:
    one poll per answer and one that fails, then ['end'], then the error. *)
Lemma whilst_failure (url : string) (interval : option Z) (polls : list transport) :
  forall (result : response) (err : error) (later : list transport),
    more_data result = true ->
    Forall streaming polls ->
    exists before,
      whilst url interval result (polls ++ Failed err :: later) =
        (before ++ [Emits OnEnd; Callback (Some err) Undefined])%list /\
      callbacks before = [] /\
      (OnEnd ∉ events before) /\
      length (requests before) = S (length polls).
Proof.
  induction polls as [|t polls IH]; intros result err later Hmore Hpolls.
  - exists [Sends (poll url result)]. cbn. rewrite Hmore.
    repeat split. apply not_elem_of_nil.
  - apply Forall_cons in Hpolls as [(r & -> & Hr) Hpolls].
    destruct (IH r err later Hr Hpolls) as (before & Heq & Hcb & Hev & Hreq).
    exists (Sends (poll url result) ::
            emit_body r ++ SetTimeout (interval_of interval) :: before)%list.
    destruct (emit_body_quiet r) as (Hcb' & Hreq' & Hev').
    cbn [app whilst]. rewrite Hmore, Heq.
    unfold callbacks, events, requests in *. repeat split.
    + cbn. now rewrite <- !app_assoc.
    + cbn. now rewrite omap_app, Hcb'.
    + cbn. rewrite omap_app. cbn. intros H. apply elem_of_app in H as [H|H]; tauto.
    + cbn. rewrite omap_app, Hreq'. cbn. now rewrite Hreq.
Qed.

(** The loop always leaves as it does on failure: either it is still
    waiting for an answer, or the last two things it did are to emit ['end']
    and to call back. *)
Lemma whilst_leaves (url : string) (interval : option Z) (answers : list transport) :
  forall result : response,
    (callbacks (whilst url interval result answers) = [] /\
     OnEnd ∉ events (whilst url interval result answers)) \/
    (exists before err,
        whilst url interval result answers =
          (before ++ [Emits OnEnd; Callback err Undefined])%list /\
        callbacks before = [] /\ OnEnd ∉ events before).
Proof.
  induction answers as [|t answers IH]; intros result; cbn [whilst].
  - destruct (more_data result).
    + left. cbn. split; [reflexivity | apply not_elem_of_nil].
    + right. exists [], None. repeat split. apply not_elem_of_nil.
  - destruct (more_data result).
    + destruct t as [err | r].
      * right. exists [Sends (poll url result)], (Some err).
        repeat split. apply not_elem_of_nil.
      * destruct (emit_body_quiet r) as (Hcb' & Hreq' & Hev').
        destruct (IH r) as [[Hcb Hev] | (before & err & Heq & Hcb & Hev)].
        -- left. unfold callbacks, events in *. cbn. rewrite !omap_app, Hcb'. cbn.
           split; [exact Hcb |].
           intros H. apply elem_of_app in H as [H|H]; tauto.
        -- right.
           exists (Sends (poll url result) ::
                   emit_body r ++ SetTimeout (interval_of interval) :: before)%list, err.
           rewrite Heq. unfold callbacks, events in *. repeat split.
           ++ cbn. now rewrite <- !app_assoc.
           ++ cbn. now rewrite omap_app, Hcb'.
           ++ cbn. rewrite omap_app. cbn. intros H. apply elem_of_app in H as [H|H]; tauto.
    + right. exists [], None. repeat split. apply not_elem_of_nil.
Qed.

(** C3: against the answers [a] with more data pending and text size 10,
    then [b] with no more data pending, the consumer of the stream sees
    data [a], data [b], end, in that order; two requests leave, the first
    with start 0 and the second with start 10, the text size of the first
    answer; and the callback is called once, without error. *)
Theorem consoleStream_scripted :
  forall (JSON_parse : string -> option json) (unexpected : response -> error)
         (self : Jenkins) (jobName : string) (interval : option Z)
         (h1 h2 : gmap string string) (code2 : Z),
    h1 !! "x-more-data" = Some "true" ->
    h1 !! "x-text-size" = Some "10" ->
    h2 !! "x-more-data" <> Some "true" ->
    let tr :=
      (consoleStream JSON_parse unexpected self jobName interval
         [Answered (Response 200 h1 "a"); Answered (Response code2 h2 "b")]).2 in
    events tr = [OnData "a"; OnData "b"; OnEnd] /\
    length (requests tr) = 2%nat /\
    qs <$> requests tr = [Some [("start", QNum 0)]; Some [("start", QNum 10)]] /\
    callbacks tr = [(None, Undefined)].
Proof.
  intros JSON_parse unexpected self jobName interval h1 h2 code2 Hmore Hsize Hlast tr.
  subst tr. rewrite consoleStream_first by reflexivity.
  cbn -[String.append]. unfold more_data, poll. cbn -[String.append].
  rewrite (bool_decide_eq_true_2 _ Hmore), (bool_decide_eq_false_2 _ Hlast), Hsize.
  repeat split.
Qed.

Lemma consoleStream_scripted_witness :
  let more : gmap string string := {[ "x-more-data" := "true"; "x-text-size" := "10" ]} in
  let tr :=
    (consoleStream (fun _ => None) (fun _ => Error "unexpected") (new_Jenkins None None)
       "job1" None
       [Answered (Response 200 more "a"); Answered (Response 200 ∅ "b")]).2 in
  events tr = [OnData "a"; OnData "b"; OnEnd] /\
  length (requests tr) = 2%nat /\
  qs <$> requests tr = [Some [("start", QNum 0)]; Some [("start", QNum 10)]] /\
  callbacks tr = [(None, Undefined)].
Proof.
  apply consoleStream_scripted.
  - vm_compute. reflexivity.
  - vm_compute. reflexivity.
  - vm_compute. discriminate.
Defined.

(** Nothing that comes after the failure is looked at. *)
Lemma whilst_failure_cut (url : string) (interval : option Z) (polls : list transport) :
  forall (result : response) (err : error) (later : list transport),
    Forall streaming polls ->
    whilst url interval result (polls ++ Failed err :: later) =
    whilst url interval result (polls ++ [Failed err]).
Proof.
  induction polls as [|t polls IH]; intros result err later Hpolls; cbn [app whilst].
  - reflexivity.
  - apply Forall_cons in Hpolls as [(r & -> & Hr) Hpolls].
    now rewrite (IH r err later Hpolls).
Qed.

(** C4: when the first answer is a 200 that announces more data, the
    answers to the polls that follow announce more data too, and then a poll
    fails with a transport error, the stream has sent the first request, one
    poll per answer and the poll that failed, and none after it: the trace
    ends with the callback, which is called once, with that error, and
    nothing that the server would answer later changes the trace. *)
Theorem consoleStream_stops_at_failure :
  forall (JSON_parse : string -> option json) (unexpected : response -> error)
         (self : Jenkins) (jobName : string) (interval : option Z)
         (first : response) (polls : list transport) (err : error)
         (later : list transport),
    statusCode first = 200 ->
    more_data first = true ->
    Forall streaming polls ->
    let tr :=
      (consoleStream JSON_parse unexpected self jobName interval
         (Answered first :: polls ++ Failed err :: later)).2 in
    length (requests tr) = (2 + length polls)%nat /\
    callbacks tr = [(Some err, Undefined)] /\
    last tr = Some (Callback (Some err) Undefined) /\
    tr = (consoleStream JSON_parse unexpected self jobName interval
            (Answered first :: polls ++ [Failed err])).2.
Proof.
  intros JSON_parse unexpected self jobName interval first polls err later
    Hcode Hmore Hpolls tr.
  subst tr. rewrite !consoleStream_first by exact Hcode.
  destruct (whilst_failure (consoleStream_url self jobName) interval polls
              first err later Hmore Hpolls) as (before & Heq & Hcb & _ & Hreq).
  destruct (emit_body_quiet first) as (Hcb' & Hreq' & _).
  rewrite (whilst_failure_cut _ _ _ _ _ later Hpolls) in *. rewrite Heq.
  unfold callbacks, requests in *. repeat split.
  - cbn. rewrite !omap_app, Hreq', !length_app, Hreq. cbn. lia.
  - cbn. rewrite !omap_app, Hcb', Hcb. reflexivity.
  - rewrite app_comm_cons, !app_assoc.
    change [Emits OnEnd; Callback (Some err) Undefined]
      with ([Emits OnEnd] ++ [Callback (Some err) Undefined])%list.
    rewrite app_assoc. apply last_snoc.
Qed.

Lemma consoleStream_stops_at_failure_witness :
  let more : gmap string string := {[ "x-more-data" := "true"; "x-text-size" := "10" ]} in
  let run := consoleStream (fun _ => None) (fun _ => Error "unexpected")
               (new_Jenkins None None) "job1" None in
  let polls := [Answered (Response 200 more "b")] in
  let tr :=
    (run (Answered (Response 200 more "a") ::
          polls ++ Failed (Error "ECONNRESET") :: [Answered (Response 200 more "c")])).2 in
  length (requests tr) = (2 + length polls)%nat /\
  callbacks tr = [(Some (Error "ECONNRESET"), Undefined)] /\
  last tr = Some (Callback (Some (Error "ECONNRESET")) Undefined) /\
  tr = (run (Answered (Response 200 more "a") :: polls ++ [Failed (Error "ECONNRESET")])).2.
Proof.
  cbv zeta. apply consoleStream_stops_at_failure.
  - reflexivity.
  - vm_compute. reflexivity.
  - constructor; [| constructor].
    eexists. split; [reflexivity |]. vm_compute. reflexivity.
Defined.

(** C9: when a poll fails in mid-stream, the stream emits ['end'], for the
    first time, just before the callback receives the error.  More
    generally, once the first answer is a 200, a stream that has called back
    or has emitted ['end'] has done both, ['end'] first, as the last two
    things it did: on failure as on completion. *)
Theorem consoleStream_end_before_error :
  (forall (JSON_parse : string -> option json) (unexpected : response -> error)
          (self : Jenkins) (jobName : string) (interval : option Z)
          (first : response) (polls : list transport) (err : error)
          (later : list transport),
      statusCode first = 200 ->
      more_data first = true ->
      Forall streaming polls ->
      exists before,
        (consoleStream JSON_parse unexpected self jobName interval
           (Answered first :: polls ++ Failed err :: later)).2 =
          (before ++ [Emits OnEnd; Callback (Some err) Undefined])%list /\
        callbacks before = [] /\ OnEnd ∉ events before) /\
  (forall (JSON_parse : string -> option json) (unexpected : response -> error)
          (self : Jenkins) (jobName : string) (interval : option Z)
          (first : response) (answers : list transport),
      statusCode first = 200 ->
      let tr :=
        (consoleStream JSON_parse unexpected self jobName interval
           (Answered first :: answers)).2 in
      (callbacks tr = [] /\ OnEnd ∉ events tr) \/
      (exists before err,
          tr = (before ++ [Emits OnEnd; Callback err Undefined])%list /\
          callbacks before = [] /\ OnEnd ∉ events before)).
Proof.
  split.
  - intros JSON_parse unexpected self jobName interval first polls err later
      Hcode Hmore Hpolls.
    rewrite consoleStream_first by exact Hcode.
    destruct (whilst_failure (consoleStream_url self jobName) interval polls
                first err later Hmore Hpolls) as (before & Heq & Hcb & Hev & _).
    destruct (emit_body_quiet first) as (Hcb' & _ & Hev').
    eexists (_ :: emit_body first ++ before)%list. rewrite Heq.
    unfold callbacks, events in *. repeat split.
    + cbn. now rewrite <- app_assoc.
    + cbn. now rewrite omap_app, Hcb', Hcb.
    + cbn. rewrite omap_app. intros H. apply elem_of_app in H as [H|H]; tauto.
  - intros JSON_parse unexpected self jobName interval first answers Hcode tr.
    subst tr. rewrite consoleStream_first by exact Hcode.
    destruct (emit_body_quiet first) as (Hcb' & _ & Hev').
    destruct (whilst_leaves (consoleStream_url self jobName) interval answers first)
      as [[Hcb Hev] | (before & err & Heq & Hcb & Hev)].
    + left. unfold callbacks, events in *. cbn. rewrite !omap_app, Hcb', Hcb.
      split; [reflexivity |].
      intros H. apply elem_of_app in H as [H|H]; tauto.
    + right. eexists (_ :: emit_body first ++ before)%list, err. rewrite Heq.
      unfold callbacks, events in *. repeat split.
      * cbn. now rewrite <- app_assoc.
      * cbn. now rewrite omap_app, Hcb', Hcb.
      * cbn. rewrite omap_app. intros H. apply elem_of_app in H as [H|H]; tauto.
Qed.

Lemma consoleStream_end_before_error_witness :
  let more : gmap string string := {[ "x-more-data" := "true"; "x-text-size" := "10" ]} in
  exists before,
    (consoleStream (fun _ => None) (fun _ => Error "unexpected") (new_Jenkins None None)
       "job1" None
       (Answered (Response 200 more "a") ::
        [Answered (Response 200 more "b")] ++ Failed (Error "ECONNRESET") :: [])).2 =
      (before ++ [Emits OnEnd; Callback (Some (Error "ECONNRESET")) Undefined])%list /\
    callbacks before = [] /\ OnEnd ∉ events before.
Proof.
  cbv zeta. apply (proj1 consoleStream_end_before_error).
  - reflexivity.
  - vm_compute. reflexivity.
  - constructor; [| constructor].
    eexists. split; [reflexivity |]. vm_compute. reflexivity.
Defined.

(** ** Aggregate status *)

Lemma uniq_fold_elem (x : jsval) (l seen : list jsval) :
  x ∈ fold_left (fun seen x => if bool_decide (x ∈ seen) then seen else (seen ++ [x])%list)
        l seen <->
  x ∈ seen \/ x ∈ l.
Proof.
  revert seen. induction l as [|y l IH]; intros seen; cbn [fold_left].
  - rewrite elem_of_nil. tauto.
  - rewrite IH, elem_of_cons. case_bool_decide as Hy.
    + split; [tauto |]. intros [H | [-> | H]]; tauto.
    + rewrite elem_of_app, list_elem_of_singleton. tauto.
Qed.

(** [_.uniq] keeps the values that occur. *)
Lemma uniq_elem (x : jsval) (l : list jsval) : x ∈ uniq l <-> x ∈ l.
Proof. unfold uniq. rewrite uniq_fold_elem, elem_of_nil. tauto. Qed.

Lemma indexOf_bound (l : list jsval) (x : jsval) : -1 <= indexOf l x.
Proof.
  induction l as [|y l IH]; cbn [indexOf]; [lia |].
  destruct (decide (y = x)); [lia |].
  destruct (Z.eqb_spec (indexOf l x) (-1)); lia.
Qed.

(** [l.indexOf(x) !== -1] says that [x] occurs in [l]. *)
Lemma indexOf_elem (l : list jsval) (x : jsval) : indexOf l x <> -1 <-> x ∈ l.
Proof.
  induction l as [|y l IH]; cbn [indexOf].
  - rewrite elem_of_nil. tauto.
  - rewrite elem_of_cons. destruct (decide (y = x)) as [->|Hne].
    + split; [tauto | lia].
    + pose proof (indexOf_bound l x) as Hb.
      destruct (Z.eqb_spec (indexOf l x) (-1)) as [E|E].
      * split; [tauto |]. intros [E' | H]; [congruence |]. apply IH in H. lia.
      * split; [intros _; right; now apply IH | lia].
Qed.

Lemma first_present_step (s : string) (order : list string) (l : list jsval) :
  first_present (s :: order) (uniq l) =
  if bool_decide (Str s ∈ l) then Some s else first_present order (uniq l).
Proof.
  cbn [first_present]. case_bool_decide as H.
  - apply (proj2 (uniq_elem _ _)), (proj2 (indexOf_elem _ _)) in H.
    destruct (Z.eqb_spec (indexOf (uniq l) (Str s)) (-1)); [contradiction | reflexivity].
  - destruct (Z.eqb_spec (indexOf (uniq l) (Str s)) (-1)) as [E|E]; [reflexivity |].
    apply (proj1 (indexOf_elem _ _)), (proj1 (uniq_elem _ _)) in E. contradiction.
Qed.

(** The restriction keeps the jobs of the given name, when a name is given. *)
Lemma restrict_elem (n : string) (data : list job_summary) (item : job_summary) :
  n <> EmptyString ->
  item ∈ restrict (Some n) data <-> item ∈ data /\ name item = n.
Proof.
  intros Hn. unfold restrict. destruct n as [|c n]; [contradiction |]. cbn [JsString.is_empty].
  rewrite !list_elem_of_In, filter_In, String.eqb_eq. reflexivity.
Qed.

(** Case analysis on which of the four statuses are present. *)
Ltac by_presence := repeat case_bool_decide; first [reflexivity | contradiction].

(** C6: [_dashboardStatus] looks at the jobs of the given name when a name
    is given, and at all the jobs otherwise, and returns the most severe of
    the statuses FAIL, WARN, ABORTED, OK, in that order, that one of them
    has.  It returns [null] when none of them has one of these four
    statuses: so when there is no job, when no job has the given name, and
    when all statuses are unknown ones.  With WARN and ABORTED and without
    FAIL, it returns WARN. *)
Theorem dashboardStatus_most_severe :
  forall (jobName : option string) (data : list job_summary),
    let jobs := restrict jobName data in
    let result := _dashboardStatus jobName data in
    (jobName = None -> jobs = data) /\
    (forall n item, jobName = Some n -> n <> EmptyString ->
                    item ∈ jobs <-> item ∈ data /\ name item = n) /\
    (present "FAIL" jobs -> result = Some "FAIL") /\
    (~ present "FAIL" jobs -> present "WARN" jobs -> result = Some "WARN") /\
    (~ present "FAIL" jobs -> ~ present "WARN" jobs -> present "ABORTED" jobs ->
     result = Some "ABORTED") /\
    (~ present "FAIL" jobs -> ~ present "WARN" jobs -> ~ present "ABORTED" jobs ->
     present "OK" jobs -> result = Some "OK") /\
    (~ present "FAIL" jobs -> ~ present "WARN" jobs -> ~ present "ABORTED" jobs ->
     ~ present "OK" jobs -> result = None) /\
    (data = [] -> result = None) /\
    (forall n, jobName = Some n -> n <> EmptyString ->
               (forall item, item ∈ data -> name item <> n) -> result = None) /\
    (present "WARN" jobs -> present "ABORTED" jobs -> ~ present "FAIL" jobs ->
     result = Some "WARN").
Proof.
  intros jobName data jobs result.
  assert (jobs = restrict jobName data) as Hjobs by reflexivity.
  assert (result =
          if bool_decide (present "FAIL" jobs) then Some "FAIL"
          else if bool_decide (present "WARN" jobs) then Some "WARN"
          else if bool_decide (present "ABORTED" jobs) then Some "ABORTED"
          else if bool_decide (present "OK" jobs) then Some "OK"
          else None) as Hresult.
  { subst result. unfold _dashboardStatus, dashboard_STATUS. fold jobs.
    now rewrite !first_present_step. }
  clearbody jobs result.
  assert (jobs = [] -> result = None) as Hempty.
  { intros E. rewrite Hresult. unfold present. rewrite E. cbn.
    now rewrite !bool_decide_eq_false_2 by apply not_elem_of_nil. }
  split; [intros ->; now rewrite Hjobs |].
  split; [intros n item -> Hn; rewrite Hjobs; now apply restrict_elem |].
  split; [intros; rewrite Hresult; by_presence |].
  split; [intros; rewrite Hresult; by_presence |].
  split; [intros; rewrite Hresult; by_presence |].
  split; [intros; rewrite Hresult; by_presence |].
  split; [intros; rewrite Hresult; by_presence |].
  split; [| split].
  - intros ->. apply Hempty. rewrite Hjobs. unfold restrict.
    destruct jobName as [n|]; [destruct (JsString.is_empty n) |]; reflexivity.
  - intros n -> Hn Hnone. apply Hempty.
    destruct jobs as [|item jobs'] eqn:E; [reflexivity | exfalso].
    assert (item ∈ restrict (Some n) data) as Hin by (rewrite <- Hjobs; left).
    apply restrict_elem in Hin as [Hin Hname]; [| exact Hn].
    exact (Hnone item Hin Hname).
  - intros. rewrite Hresult. by_presence.
Qed.

Lemma dashboardStatus_most_severe_witness :
  let jobs := [ {| status := Str "OK"; name := "job1" |};
                {| status := Str "ABORTED"; name := "job2" |};
                {| status := Str "WARN"; name := "job3" |};
                {| status := Str "PURPLE"; name := "job4" |} ] in
  _dashboardStatus None jobs = Some "WARN" /\
  _dashboardStatus (Some "job2") jobs = Some "ABORTED" /\
  _dashboardStatus (Some "job4") jobs = None /\
  _dashboardStatus (Some "job5") jobs = None.
Proof.
  cbv zeta. split; [| split; [| split]].
  - apply dashboardStatus_most_severe; decided.
  - refine (proj1 (proj2 (proj2 (proj2 (proj2
              (dashboardStatus_most_severe (Some "job2") _))))) _ _ _); decided.
  - refine (proj1 (proj2 (proj2 (proj2 (proj2 (proj2 (proj2
              (dashboardStatus_most_severe (Some "job4") _))))))) _ _ _ _); decided.
  - refine (proj1 (proj2 (proj2 (proj2 (proj2 (proj2 (proj2 (proj2 (proj2
              (dashboardStatus_most_severe (Some "job5") _))))))))) _ eq_refl _ _).
    + discriminate.
    + intros item Hin.
      repeat (apply elem_of_cons in Hin as [-> | Hin]; [discriminate |]).
      now apply elem_of_nil in Hin.
Defined.

(** ** Triggering many builds *)

(** Distinct indices below [n], [n] of them at least, are all the indices
    below [n]. *)
Lemma all_answered (done : list nat) (n : nat) :
  NoDup done -> (forall i, i ∈ done -> (i < n)%nat) -> (n <= length done)%nat ->
  forall j, (j < n)%nat -> j ∈ done.
Proof.
  intros Hnd Hlt Hlen j Hj. apply list_elem_of_In.
  apply (@NoDup_length_incl nat done (seq 0 n)).
  - now apply NoDup_ListNoDup.
  - now rewrite length_seq.
  - intros i Hi. apply in_seq. apply list_elem_of_In, Hlt in Hi. lia.
  - apply in_seq. lia.
Qed.

Lemma trigger_sends (items : list job_summary) :
  forall self : Jenkins,
    url (trigger self items).1 = url self /\
    target <$> (trigger self items).2 =
      (fun item => url self +:+ "/job/" +:+ name item +:+ "/build") <$> items.
Proof.
  induction items as [|item items IH]; intros self; cbn [trigger].
  - split; reflexivity.
  - destruct (build self (name item) None) as [self1 r] eqn:Hb.
    destruct (trigger self1 items) as [self2 rs] eqn:Ht.
    assert (url self1 = url self /\
            target r = url self +:+ "/job/" +:+ name item +:+ "/build") as [Hu Hr].
    { unfold build in Hb. injection Hb as <- <-. split; reflexivity. }
    destruct (IH self1) as [IHu IHt]. rewrite Ht in IHu, IHt. cbn in *.
    split; [congruence |]. now rewrite Hr, IHt, Hu.
Qed.

Section Join.

Variable JSON_parse : string -> option json.
Variable unexpected : response -> error.
Variable o : Opts.
Variable items : list job_summary.

Local Abbreviation run := (join JSON_parse unexpected o items).
Local Abbreviation outcome := (deliver JSON_parse unexpected o).

(** The join sends nothing. *)
Lemma join_requests (answers : list (nat * transport)) :
  forall answered completed surfaced,
    requests (run answered completed surfaced answers) = [].
Proof.
  induction answers as [|[i t] answers IH]; intros answered completed surfaced;
    cbn [join]; [reflexivity |].
  destruct (items !! i); [| apply IH].
  case_bool_decide; [apply IH |].
  unfold requests in *.
  destruct (outcome t) as [[err|] d | | |]; cbn; rewrite ?omap_app, ?IH;
    try reflexivity.
  - now destruct surfaced.
  - now destruct (negb surfaced && _).
Qed.

(** Once an error has surfaced, the callback is not called any more. *)
Lemma join_surfaced (answers : list (nat * transport)) :
  forall answered completed,
    callbacks (run answered completed true answers) = [].
Proof.
  induction answers as [|[i t] answers IH]; intros answered completed;
    cbn [join]; [reflexivity |].
  destruct (items !! i); [| apply IH].
  case_bool_decide; [apply IH |].
  unfold callbacks in *.
  destruct (outcome t) as [[err|] d | | |]; cbn; rewrite ?IH; reflexivity.
Qed.

(** The callback is called without error only when every build has been
    answered with success: [done] is the builds that have succeeded so
    far. *)
Lemma join_complete (answers : list (nat * transport)) :
  forall answered completed surfaced done,
    NoDup done ->
    (forall i, i ∈ done -> (i < length items)%nat /\ i ∈ answered) ->
    completed = length done ->
    (None, Undefined) ∈ callbacks (run answered completed surfaced answers) ->
    forall i, (i < length items)%nat ->
      i ∈ done \/ exists t d, (i, t) ∈ answers /\ outcome t = Calls None d.
Proof.
  induction answers as [|[j t] answers IH];
    intros answered completed surfaced done Hnd Hdone Hlen Hcb i Hi;
    cbn [join] in Hcb.
  - now apply elem_of_nil in Hcb.
  - assert (forall answered' completed' surfaced' done',
              NoDup done' ->
              (forall i, i ∈ done' -> (i < length items)%nat /\ i ∈ answered') ->
              completed' = length done' ->
              (forall i, i ∈ done' -> i ∈ done \/ exists d, i = j /\ outcome t = Calls None d) ->
              (None, Undefined) ∈ callbacks (run answered' completed' surfaced' answers) ->
              i ∈ done \/
              exists t' d, (i, t') ∈ (j, t) :: answers /\ outcome t' = Calls None d)
      as Hrest.
    { intros answered' completed' surfaced' done' Hnd' Hdone' Hlen' Hsub Hcb'.
      destruct (IH answered' completed' surfaced' done' Hnd' Hdone' Hlen' Hcb' i Hi)
        as [Hin | (t' & d & Hin & Ht')].
      - destruct (Hsub i Hin) as [? | (d & -> & Hd)]; [now left |].
        right. exists t, d. split; [left | exact Hd].
      - right. exists t', d. split; [now right | exact Ht']. }
    destruct (items !! j) as [item|] eqn:Hj;
      [| apply (Hrest answered completed surfaced done); auto].
    case_bool_decide as Hans;
      [apply (Hrest answered completed surfaced done); auto |].
    assert (forall k, k ∈ done -> (k < length items)%nat /\ k ∈ j :: answered) as Hdone'.
    { intros k Hk. destruct (Hdone k Hk). split; [assumption | now right]. }
    unfold callbacks in *.
    destruct (outcome t) as [[err|] d | | |] eqn:Ht; cbn in Hcb.
    + rewrite omap_app in Hcb. apply elem_of_app in Hcb as [Hcb | Hcb].
      { destruct surfaced; cbn in Hcb;
          [now apply elem_of_nil in Hcb |
           apply list_elem_of_singleton in Hcb; discriminate]. }
      apply (Hrest (j :: answered) completed true done); auto.
    + assert (NoDup (j :: done)) as Hnd'.
      { apply NoDup_cons. split; [| exact Hnd]. intros Hin. now destruct (Hdone j Hin). }
      assert (forall k, k ∈ j :: done -> (k < length items)%nat /\ k ∈ j :: answered) as Hall.
      { intros k Hk. apply elem_of_cons in Hk as [-> | Hk].
        - split; [now apply lookup_lt_Some in Hj | left].
        - now apply Hdone'. }
      assert (forall k, k ∈ j :: done ->
                k ∈ done \/ exists d', k = j /\ Calls None d = Calls None d') as Hsub.
      { intros k Hk. apply elem_of_cons in Hk as [-> | Hk]; [right; eauto | now left]. }
      rewrite omap_app in Hcb. apply elem_of_app in Hcb as [Hcb | Hcb].
      * destruct (negb surfaced && bool_decide (length items ≤ S completed)%nat) eqn:Hfire;
          [| now apply elem_of_nil in Hcb].
        apply andb_true_iff in Hfire as [_ Hfire]. apply bool_decide_eq_true in Hfire.
        assert (i ∈ j :: done) as Hin.
        { apply (all_answered (j :: done) (length items)); auto.
          - intros k Hk. now apply Hall.
          - cbn. lia. }
        destruct (Hsub i Hin) as [? | (d' & -> & _)]; [now left |].
        right. exists t, d. split; [left | exact Ht].
      * apply (Hrest (j :: answered) (S completed) surfaced (j :: done) Hnd' Hall);
          [cbn; lia | | exact Hcb].
        intros k Hk. destruct (Hsub k Hk) as [? | (d' & -> & _)]; [now left |].
        right. eauto.
    + apply (Hrest (j :: answered) completed surfaced done); auto.
    + apply (Hrest (j :: answered) completed surfaced done); auto.
    + apply (Hrest (j :: answered) completed surfaced done); auto.
Qed.

(** The first error that comes in reaches the callback, and nothing else
    does. *)
Lemma join_first_error (before after : list (nat * transport))
    (i : nat) (t : transport) (e : error) (d : payload) :
  (i < length items)%nat ->
  outcome t = Calls (Some e) d ->
  i ∉ (fst <$> before) ->
  (forall j t' e' d', (j, t') ∈ before -> outcome t' <> Calls (Some e') d') ->
  forall answered completed done,
    NoDup done ->
    (forall k, k ∈ done -> (k < length items)%nat /\ k ∈ answered) ->
    completed = length done ->
    i ∉ answered ->
    callbacks (run answered completed false (before ++ (i, t) :: after)) =
      [(Some e, Undefined)].
Proof.
  intros Hi Ht. induction before as [|[j t'] before IH];
    intros Hfresh Hok answered completed done Hnd Hdone Hlen Hans; cbn [app join].
  - destruct (lookup_lt_is_Some_2 items i Hi) as [item ->].
    rewrite bool_decide_eq_false_2 by exact Hans. rewrite Ht.
    unfold callbacks. cbn. now rewrite (join_surfaced after).
  - rewrite fmap_cons, not_elem_of_cons in Hfresh. destruct Hfresh as [Hij Hfresh].
    assert (forall j t' e' d', (j, t') ∈ before -> outcome t' <> Calls (Some e') d') as Hok'.
    { intros j0 t0 e0 d0 Hin. apply (Hok j0). now right. }
    destruct (items !! j) as [item|] eqn:Hj; [| now apply (IH Hfresh Hok' _ _ done)].
    case_bool_decide as Hj'; [now apply (IH Hfresh Hok' _ _ done) |].
    assert (i ∉ j :: answered) as Hans'.
    { rewrite not_elem_of_cons. split; [exact Hij | exact Hans]. }
    assert (forall k, k ∈ done -> (k < length items)%nat /\ k ∈ j :: answered) as Hdone'.
    { intros k Hk. destruct (Hdone k Hk). split; [assumption | now right]. }
    destruct (outcome t') as [[err|] d' | | |] eqn:Ht'.
    + exfalso. apply (Hok j t' err d'); [left | exact Ht'].
    + assert (NoDup (j :: done)) as Hnd'.
      { apply NoDup_cons. split; [| exact Hnd]. intros Hin. now destruct (Hdone j Hin). }
      assert (forall k, k ∈ j :: done -> (k < length items)%nat /\ k ∈ j :: answered) as Hall.
      { intros k Hk. apply elem_of_cons in Hk as [-> | Hk].
        - split; [now apply lookup_lt_Some in Hj | left].
        - now apply Hdone'. }
      rewrite (bool_decide_eq_false_2 (length items ≤ S completed)%nat).
      * cbn [negb andb app]. unfold callbacks in *. cbn.
        apply (IH Hfresh Hok' _ _ (j :: done)); auto. cbn. lia.
      * intros Hfull. apply Hans'.
        apply (Hall i), (all_answered (j :: done) (length items)); auto.
        -- intros k Hk. now apply Hall.
        -- cbn. lia.
    + unfold callbacks in *. cbn. now apply (IH Hfresh Hok' _ _ done).
    + now apply (IH Hfresh Hok' _ _ done).
    + unfold callbacks in *. cbn. now apply (IH Hfresh Hok' _ _ done).
Qed.

(** When the builds are answered with success, one after the other, the
    callback is not called as long as one is missing, and is called without
    error, as the last thing done, when the last answer comes in. *)
Lemma join_all_succeed (answers : list (nat * transport)) :
  forall answered completed,
    NoDup (fst <$> answers) ->
    (forall j t, (j, t) ∈ answers ->
       (j < length items)%nat /\ (j ∉ answered) /\ exists d, outcome t = Calls None d) ->
    ((completed + length answers < length items)%nat ->
     callbacks (run answered completed false answers) = []) /\
    (answers <> [] -> (completed + length answers = length items)%nat ->
     callbacks (run answered completed false answers) = [(None, Undefined)] /\
     last (run answered completed false answers) = Some (Callback None Undefined)).
Proof.
  induction answers as [|[j t] answers IH]; intros answered completed Hnd Hall.
  - split; [reflexivity | congruence].
  - destruct (Hall j t) as (Hj & Hans & d & Ht); [left |].
    rewrite fmap_cons in Hnd. apply NoDup_cons in Hnd as [Hfresh Hnd].
    assert (forall k t', (k, t') ∈ answers ->
              (k < length items)%nat /\ (k ∉ j :: answered) /\
              exists d, outcome t' = Calls None d) as Hall'.
    { intros k t' Hin. destruct (Hall k t') as (? & ? & ?); [now right |].
      repeat split; try assumption. rewrite not_elem_of_cons. split; [| assumption].
      intros ->. apply Hfresh. now apply (list_elem_of_fmap_2 fst _ (j, t')). }
    destruct (IH (j :: answered) (S completed) Hnd Hall') as [IH1 IH2].
    cbn [join length]. destruct (lookup_lt_is_Some_2 items j Hj) as [item ->].
    rewrite bool_decide_eq_false_2 by exact Hans. rewrite Ht. cbn [negb andb].
    unfold callbacks in *. split.
    + intros Hlt. rewrite bool_decide_eq_false_2 by lia. cbn. apply IH1. lia.
    + intros _ Heq. destruct answers as [|a answers].
      * rewrite bool_decide_eq_true_2 by (cbn in Heq; lia). split; reflexivity.
      * rewrite bool_decide_eq_false_2 by (cbn in Heq; lia).
        destruct IH2 as [IHc IHl]; [discriminate | cbn in *; lia |].
        split; [exact IHc |]. cbn [app].
        destruct (run (j :: answered) (S completed) false (a :: answers));
          [discriminate | exact IHl].
Qed.

End Join.

Lemma sends_only (rs : list request) (tr : list action) :
  requests ((Sends <$> rs) ++ tr) = (rs ++ requests tr)%list /\
  callbacks ((Sends <$> rs) ++ tr) = callbacks tr.
Proof.
  unfold requests, callbacks. induction rs as [|r rs [IH1 IH2]]; cbn; [easy |].
  split; [now f_equal | exact IH2].
Qed.

Lemma filter_all {A : Type} (l : list A) : List.filter (fun _ => true) l = l.
Proof. induction l as [|x l IH]; cbn; [reflexivity | now f_equal]. Qed.

Lemma criteria_filter_status (wanted : jsval) (item : job_summary) :
  criteria_filter {[ "status" := wanted ]} item = bool_decide (status item = wanted).
Proof.
  unfold criteria_filter. rewrite lookup_singleton_eq.
  destruct (decide (({[ "status" := wanted ]} : gmap string jsval) = ∅)) as [E|_].
  - now apply map_non_empty_singleton in E.
  - apply bool_decide_ext. split; congruence.
Qed.

(** A dashboard answered 200 is read by [dashboard]'s own handler. *)
Lemma dashboard_read
    (JSON_parse : string -> option json) (unexpected : response -> error)
    (self : Jenkins) (result : response) (jobs : option (list job_json)) :
  statusCode result = 200 ->
  JSON_parse (body result) = Some (DashboardJson jobs) ->
  deliver JSON_parse unexpected (opts (dashboard self).1) (Answered result) =
  Calls None (Jobs (dashboard_data jobs)).
Proof.
  intros Hcode Hjson. unfold deliver, bag_dispatch. cbn -[String.append].
  rewrite Hcode, lookup_insert_eq. unfold react. now rewrite Hjson.
Qed.

(** C8: once the dashboard is read, [buildBy] sends one build request per
    job that passes the criteria, in the order of the dashboard: the jobs
    whose status is the status of the criteria, and all the jobs when there
    is no criterion.  Its callback is called without error only when every
    one of these builds has been answered with success; when the builds are
    answered with success it is not called before the last answer, and is
    called once, as the last thing done, when that comes in; and when an
    answer is an error, the first such error reaches the callback, which is
    called once. *)
Theorem buildBy_fan_out_join :
  forall (JSON_parse : string -> option json) (unexpected : response -> error)
         (self : Jenkins) (criteria : option (gmap string jsval))
         (t : transport) (data : list job_summary),
    deliver JSON_parse unexpected (opts (dashboard self).1) t = Calls None (Jobs data) ->
    let items := List.filter (criteria_filter (default ∅ criteria)) data in
    let run := buildBy JSON_parse unexpected self criteria t in
    let outcome := deliver JSON_parse unexpected (opts (run []).1) in
    (forall wanted, criteria = Some {[ "status" := wanted ]} ->
       items = List.filter (fun item => bool_decide (status item = wanted)) data) /\
    (criteria = None \/ criteria = Some ∅ -> items = data) /\
    (forall answers,
       target <$> requests (run answers).2 =
       (url self +:+ "/api/json") ::
       ((fun item => url self +:+ "/job/" +:+ name item +:+ "/build") <$> items)) /\
    (forall answers,
       (None, Undefined) ∈ callbacks (run answers).2 ->
       forall i, (i < length items)%nat ->
         exists t' d, (i, t') ∈ answers /\ outcome t' = Calls None d) /\
    (forall answers,
       NoDup (fst <$> answers) ->
       (forall i t', (i, t') ∈ answers ->
          (i < length items)%nat /\ exists d, outcome t' = Calls None d) ->
       ((length answers < length items)%nat -> callbacks (run answers).2 = []) /\
       (length answers = length items ->
        callbacks (run answers).2 = [(None, Undefined)] /\
        last (run answers).2 = Some (Callback None Undefined))) /\
    (forall (before : list (nat * transport)) i t' e d after,
       (i < length items)%nat ->
       i ∉ (fst <$> before) ->
       (forall j t'' e' d', (j, t'') ∈ before -> outcome t'' <> Calls (Some e') d') ->
       outcome t' = Calls (Some e) d ->
       callbacks (run (before ++ (i, t') :: after)%list).2 = [(Some e, Undefined)]).
Proof.
  intros JSON_parse unexpected self criteria t data Hdash items run outcome.
  split; [| split].
  { intros wanted ->. subst items. cbn [default]. apply filter_ext.
    intros item. apply criteria_filter_status. }
  { intros [-> | ->]; subst items; cbn [default]; unfold criteria_filter;
      (destruct (decide ((∅ : gmap string jsval) = ∅)); [| congruence]); apply filter_all. }
  assert (forall answers,
            run answers =
            match items with
            | [] => ((dashboard self).1,
                     [Sends (dashboard self).2; Callback None Undefined])
            | _ :: _ =>
                ((trigger (dashboard self).1 items).1,
                 Sends (dashboard self).2 ::
                 (Sends <$> (trigger (dashboard self).1 items).2) ++
                 join JSON_parse unexpected (opts (trigger (dashboard self).1 items).1)
                   items [] 0 false answers)
            end) as Hrun.
  { intros answers. subst run items. unfold buildBy.
    change (dashboard self) with ((dashboard self).1, (dashboard self).2) at 1.
    cbv beta iota. rewrite Hdash.
    destruct (List.filter _ data) as [|item items']; [reflexivity |].
    now destruct (trigger (dashboard self).1 (item :: items')). }
  clearbody items. subst outcome. rewrite (Hrun []).
  destruct items as [|item items'].
  { (* no job passes *)
    split; [intros; now rewrite Hrun |].
    split; [intros answers _ i Hi; cbn in Hi; lia |].
    split; [| intros before i t' e d after Hi; cbn in Hi; lia].
    intros answers _ _. split; [cbn; lia |].
    intros Hlen. now rewrite Hrun. }
  set (items := item :: items') in *.
  set (self' := (trigger (dashboard self).1 items).1) in *.
  set (rs := (trigger (dashboard self).1 items).2) in *.
  cbn [fst snd].
  assert (forall answers,
            callbacks (run answers).2 =
            callbacks (join JSON_parse unexpected (opts self') items [] 0 false answers))
    as Hcallbacks.
  { intros answers. rewrite Hrun. subst items. cbn [snd].
    apply (sends_only ((dashboard self).2 :: rs)). }
  split; [| split; [| split]].
  - intros answers. rewrite Hrun. subst items. cbn [snd].
    erewrite (f_equal (fmap target));
      [| apply (proj1 (sends_only ((dashboard self).2 :: rs) _))].
    rewrite join_requests, app_nil_r, !fmap_cons.
    f_equal. apply (trigger_sends (item :: items') (dashboard self).1).
  - intros answers Hcb i Hi. rewrite Hcallbacks in Hcb.
    destruct (join_complete JSON_parse unexpected (opts self') items answers
                [] 0%nat false [] (NoDup_nil_2) ) with (i := i) as [Hin | Hex];
      try assumption; try reflexivity.
    + intros k Hk. now apply elem_of_nil in Hk.
    + now apply elem_of_nil in Hin.
  - intros answers Hnd Hall.
    destruct (join_all_succeed JSON_parse unexpected (opts self') items answers [] 0%nat Hnd)
      as [H1 H2].
    { intros j t' Hin. destruct (Hall j t' Hin) as [? ?].
      repeat split; try assumption. apply not_elem_of_nil. }
    split.
    + intros Hlt. rewrite Hcallbacks. now apply H1.
    + intros Heq. rewrite Hcallbacks.
      destruct H2 as [H2c H2l]; [| exact Heq |].
      { intros ->. subst items. discriminate. }
      split; [exact H2c |]. rewrite Hrun. subst items. cbn [snd].
      rewrite app_comm_cons, last_app. now rewrite H2l.
  - intros before i t' e d after Hi Hfresh Hok Ht'. rewrite Hcallbacks.
    apply (join_first_error JSON_parse unexpected (opts self') items before after
             i t' e d Hi Ht' Hfresh Hok [] 0%nat []).
    + apply NoDup_nil_2.
    + intros k Hk. now apply elem_of_nil in Hk.
    + reflexivity.
    + apply not_elem_of_nil.
Qed.

Lemma buildBy_fan_out_join_witness :
  let JSON_parse := fun _ : string =>
    Some (DashboardJson (Some [ {| job_name := "job1"; color := "red" |};
                                {| job_name := "job2"; color := "blue" |};
                                {| job_name := "job3"; color := "red_anime" |} ])) in
  let run := buildBy JSON_parse (fun _ => Error "unexpected") (new_Jenkins None None)
               (Some {[ "status" := Str "FAIL" ]}) (Answered (Response 200 ∅ "{}")) in
  let started := Answered (Response 201 ∅ EmptyString) in
  let missing := Answered (Response 404 ∅ EmptyString) in
  target <$> requests (run []).2 =
    [ "http://localhost:8080/api/json"; "http://localhost:8080/job/job1/build";
      "http://localhost:8080/job/job3/build" ] /\
  callbacks (run [(1%nat, started)]).2 = [] /\
  callbacks (run [(1%nat, started); (0%nat, started)]).2 = [(None, Undefined)] /\
  callbacks (run [(1%nat, started); (0%nat, missing); (0%nat, started)]).2 =
    [(Some (Error "Job job3 does not exist"), Undefined)].
Proof.
  cbv zeta.
  pose proof (buildBy_fan_out_join
                (fun _ : string =>
                   Some (DashboardJson (Some [ {| job_name := "job1"; color := "red" |};
                                               {| job_name := "job2"; color := "blue" |};
                                               {| job_name := "job3"; color := "red_anime" |} ])))
                (fun _ => Error "unexpected") (new_Jenkins None None)
                (Some {[ "status" := Str "FAIL" ]}) (Answered (Response 200 ∅ "{}"))
                [ {| status := Str "FAIL"; name := "job1" |};
                  {| status := Str "OK"; name := "job2" |};
                  {| status := Str "FAIL"; name := "job3" |} ]) as H.
  cbv zeta in H. destruct H as (_ & _ & Hsent & _ & Hjoin &Herror).
  { vm_compute. reflexivity. }
  split; [| split; [| split]].
  - rewrite Hsent. vm_compute. reflexivity.
  - apply Hjoin.
    + apply NoDup_singleton.
    + intros i t' Hin. apply list_elem_of_singleton in Hin. injection Hin as -> ->.
      split; [vm_compute; lia | eexists; vm_compute; reflexivity].
    + vm_compute. lia.
  - apply Hjoin.
    + decided.
    + intros i t' Hin.
      repeat (apply elem_of_cons in Hin as [Hin | Hin];
              [injection Hin as -> ->;
               split; [vm_compute; lia | eexists; vm_compute; reflexivity] |]).
      now apply elem_of_nil in Hin.
    + vm_compute. reflexivity.
  - apply (Herror [(1%nat, Answered (Response 201 ∅ EmptyString))] 0%nat
             (Answered (Response 404 ∅ EmptyString))
             (Error "Job job3 does not exist") Undefined
             [(0%nat, Answered (Response 201 ∅ EmptyString))]).
    + vm_compute. lia.
    + decided.
    + intros j t'' e' d' Hin. apply list_elem_of_singleton in Hin.
      injection Hin as -> ->. vm_compute. discriminate.
    + vm_compute. reflexivity.
Defined.

(** ** Discovery *)

(** With no reply, the timeout alone calls back, once. *)
Lemma discover_timeout (host : string) :
  callbacks (discover host [TimerFired]) =
  [(Some (Error ("Unable to find any Jenkins instance on " +:+ host)), Undefined)].
Proof. reflexivity. Qed.

(** C2, where the code departs from it: nothing clears the timer, so that
    after a reply the timeout still fires and the callback is called a
    second time, with the not-found error; and the timeout path does not
    close the socket, which the reply path and both error paths do. *)
Theorem discover_timeout_not_cancelled :
  forall (host message result : string) (err : error),
    callbacks (discover host [SocketMessage message; ParserEnd result; TimerFired]) =
      [ (None, Xml result);
        (Some (Error ("Unable to find any Jenkins instance on " +:+ host)), Undefined) ] /\
    (SocketClose ∉ discover host [TimerFired]) /\
    (SocketClose ∈ discover host [SocketMessage message]) /\
    (SocketClose ∈ discover host [SocketError err]) /\
    (SocketClose ∈ discover host [Sent (Some err)]).
Proof.
  intros host message result err. split; [reflexivity |].
  split; [| repeat split; cbn; set_solver].
  cbn. intros H.
  repeat (apply elem_of_cons in H as [H | H]; [discriminate |]).
  now apply elem_of_nil in H.
Qed.

(** * Further properties *)

(** ** What a sequence of operations keeps *)

Lemma start_all_keeps_handlers (ops : list operation) :
  forall (self : Jenkins) (code : Z),
    (forall op, op ∈ ops -> code ∉ assigned_codes op) ->
    handlers (opts (start_all ops self)) !! code = handlers (opts self) !! code.
Proof.
  induction ops as [|op ops IH]; intros self code Hcode; cbn [start_all]; [reflexivity |].
  rewrite IH by (intros op' Hin; apply Hcode; now right).
  apply start_keeps_handlers, Hcode. left.
Qed.

Lemma auth_codes_free (op : operation) :
  (401 ∉ assigned_codes op) /\ (403 ∉ assigned_codes op).
Proof. destruct op; split; decided. Qed.

(** X1: no operation assigns the handlers of 401 and 403.  Whatever
    operations have been started on an instance since it was made, an answer
    401 is reported as a failed authentication and an answer 403 as a
    required one. *)
Theorem authentication_errors_kept :
  forall (JSON_parse : string -> option json) (unexpected : response -> error)
         (url env : option string) (ops : list operation)
         (hs : gmap string string) (b : string),
    let self := start_all ops (new_Jenkins url env) in
    deliver JSON_parse unexpected (opts self) (Answered (Response 401 hs b)) =
      Calls (Some (Error "Authentication failed - incorrect username and/or password in Jenkins URL"))
        Undefined /\
    deliver JSON_parse unexpected (opts self) (Answered (Response 403 hs b)) =
      Calls (Some (Error "Jenkins requires authentication - set username and password in Jenkins URL"))
        Undefined.
Proof.
  intros JSON_parse unexpected url env ops hs b self. subst self.
  unfold deliver, bag_dispatch. cbn [statusCode].
  rewrite !start_all_keeps_handlers by (intros op _; apply auth_codes_free).
  split; reflexivity.
Qed.

(** ** Single answers *)

(** X2: [stop], [job] and [consoleStream] report an answer 404 as the job
    of the call not existing; [stop] reports an answer 200 as success
    without payload.  The table is the one that the operation leaves. *)
Theorem job_operations_not_found :
  forall (JSON_parse : string -> option json) (unexpected : response -> error)
         (self : Jenkins) (jobName : string) (interval : option Z)
         (hs : gmap string string) (b : string),
    let missing := Calls (Some (Error ("Job " +:+ jobName +:+ " does not exist"))) Undefined in
    deliver JSON_parse unexpected (opts (stop self jobName).1)
      (Answered (Response 404 hs b)) = missing /\
    deliver JSON_parse unexpected (opts (job self jobName).1)
      (Answered (Response 404 hs b)) = missing /\
    deliver JSON_parse unexpected (opts (consoleStream_setup self jobName interval))
      (Answered (Response 404 hs b)) = missing /\
    deliver JSON_parse unexpected (opts (stop self jobName).1)
      (Answered (Response 200 hs b)) = Calls None Undefined.
Proof.
  intros. subst missing. unfold deliver, bag_dispatch. cbn -[String.append].
  repeat split; simplify_map_eq; reflexivity.
Qed.

(** X3: [version] answers with the value of the header [x-jenkins] of a
    200, and with the error "Not a Jenkins server" when the header is
    missing or empty. *)
Theorem version_from_header :
  forall (JSON_parse : string -> option json) (unexpected : response -> error)
         (self : Jenkins) (result : response),
    statusCode result = 200 ->
    deliver JSON_parse unexpected (opts (version self).1) (Answered result) =
    match headers result !! "x-jenkins" with
    | Some (String c v) => Calls None (VersionNumber (String c v))
    | _ => Calls (Some (Error "Not a Jenkins server")) Undefined
    end.
Proof.
  intros JSON_parse unexpected self result Hcode.
  unfold deliver, bag_dispatch. cbn -[String.append].
  rewrite Hcode, lookup_insert_eq. unfold react.
  destruct (headers result !! "x-jenkins") as [[|c v]|]; reflexivity.
Qed.

Lemma version_from_header_witness :
  deliver (fun _ => None) (fun _ => Error "unexpected")
    (opts (version (new_Jenkins None None)).1)
    (Answered (Response 200 {[ "x-jenkins" := "1.532" ]} EmptyString)) =
  Calls None (VersionNumber "1.532").
Proof.
  rewrite version_from_header by reflexivity. vm_compute. reflexivity.
Defined.

(** X4: a 200 whose body [JSON.parse] rejects makes the handlers of
    [dashboard], [executor], [job] and [queue] throw: the callback is not
    called. *)
Theorem readers_throw_on_bad_json :
  forall (JSON_parse : string -> option json) (unexpected : response -> error)
         (self : Jenkins) (name : string) (result : response),
    statusCode result = 200 ->
    JSON_parse (body result) = None ->
    deliver JSON_parse unexpected (opts (dashboard self).1) (Answered result) = Throws /\
    deliver JSON_parse unexpected (opts (executor self).1) (Answered result) = Throws /\
    deliver JSON_parse unexpected (opts (job self name).1) (Answered result) = Throws /\
    deliver JSON_parse unexpected (opts (queue self).1) (Answered result) = Throws.
Proof.
  intros JSON_parse unexpected self name result Hcode Hjson.
  unfold deliver, bag_dispatch. cbn -[String.append]. rewrite Hcode.
  repeat split; simplify_map_eq; unfold react; rewrite ?Hjson; reflexivity.
Qed.

Lemma readers_throw_on_bad_json_witness :
  deliver (fun _ => None) (fun _ => Error "unexpected")
    (opts (dashboard (new_Jenkins None None)).1)
    (Answered (Response 200 ∅ "<html>")) = Throws.
Proof.
  apply (readers_throw_on_bad_json (fun _ => None) _ _ EmptyString (Response 200 ∅ "<html>"));
    reflexivity.
Defined.

(** X5: [dashboard] and [queue] keep the order of the server: the
    summaries of [dashboard] are one per job, with the names of the jobs and
    the statuses of their colours, and the list of [queue] is the task names;
    a body without jobs, or without items, gives the empty list. *)
Theorem readers_keep_order :
  forall (JSON_parse : string -> option json) (unexpected : response -> error)
         (self : Jenkins) (result : response),
    statusCode result = 200 ->
    (forall jobs,
        JSON_parse (body result) = Some (DashboardJson jobs) ->
        exists data,
          deliver JSON_parse unexpected (opts (dashboard self).1) (Answered result) =
            Calls None (Jobs data) /\
          name <$> data = job_name <$> default [] jobs /\
          status <$> data = (fun j => _colorStatus (color j)) <$> default [] jobs) /\
    (forall items,
        JSON_parse (body result) = Some (QueueJson items) ->
        deliver JSON_parse unexpected (opts (queue self).1) (Answered result) =
          Calls None (QueueNames (default [] items))).
Proof.
  intros JSON_parse unexpected self result Hcode. split.
  - intros jobs Hjson. exists (dashboard_data jobs). split; [| split].
    + now apply dashboard_read.
    + destruct jobs as [js|]; cbn; [| reflexivity].
      rewrite <- list_fmap_compose. reflexivity.
    + destruct jobs as [js|]; cbn; [| reflexivity].
      rewrite <- list_fmap_compose. reflexivity.
  - intros items Hjson. unfold deliver, bag_dispatch. cbn -[String.append].
    rewrite Hcode, lookup_insert_eq. unfold react. rewrite Hjson.
    now destruct items.
Qed.

Lemma readers_keep_order_witness :
  let JSON_parse := fun _ : string =>
    Some (DashboardJson (Some [ {| job_name := "job1"; color := "red" |};
                                {| job_name := "job2"; color := "blue_anime" |} ])) in
  exists data,
    deliver JSON_parse (fun _ => Error "unexpected")
      (opts (dashboard (new_Jenkins None None)).1)
      (Answered (Response 200 ∅ "{}")) = Calls None (Jobs data) /\
    name <$> data = ["job1"; "job2"] /\
    status <$> data = [Str "FAIL"; Str "OK"].
Proof.
  cbv zeta.
  destruct (proj1 (readers_keep_order
                     (fun _ : string =>
                        Some (DashboardJson (Some [ {| job_name := "job1"; color := "red" |};
                                                    {| job_name := "job2"; color := "blue_anime" |} ])))
                     (fun _ => Error "unexpected") (new_Jenkins None None)
                     (Response 200 ∅ "{}") eq_refl) _ eq_refl)
    as (data & H1 & H2 & H3).
  exists data. split; [exact H1 | split; [exact H2 |]].
  rewrite H3. vm_compute. reflexivity.
Defined.

(** ** What the view module leaves behind *)

Lemma start_keeps_headers (op : operation) (self : Jenkins) :
  opts_headers (opts self) = Some [("content-type", "application/xml")] ->
  opts_headers (opts (start op self).1) = Some [("content-type", "application/xml")] /\
  sent_headers (start op self).2 = Some [("content-type", "application/xml")].
Proof. intros H. destruct op; split; cbn -[String.append]; first [exact H | reflexivity]. Qed.

Lemma start_keeps_body (op : operation) (self : Jenkins) :
  sets_body op = false ->
  opts_body (opts (start op self).1) = opts_body (opts self) /\
  sent_body (start op self).2 = opts_body (opts self).
Proof. destruct op; try discriminate; intros _; split; reflexivity. Qed.

(** X6: nothing but [create] of the view module assigns the headers of
    the instance, and it always assigns the same ones.  So once a view has
    been created, every request of every later operation, whatever was
    started in between, is sent with the content type [application/xml]. *)
Theorem view_headers_stay :
  forall (self : Jenkins) (name config : string) (ops : list operation) (op : operation),
    let after := start_all ops (View.create self name config).1 in
    sent_headers (start op after).2 = Some [("content-type", "application/xml")].
Proof.
  intros self name config ops op after. apply start_keeps_headers. subst after.
  assert (opts_headers (opts (View.create self name config).1) =
          Some [("content-type", "application/xml")]) as H by reflexivity.
  revert H. generalize (View.create self name config).1. clear.
  induction ops as [|op ops IH]; intros self H; cbn [start_all]; [exact H |].
  apply IH. now apply start_keeps_headers.
Qed.

(** X7: the body that [create] or [update] of the view module assigns
    stays on the instance until one of the two is called again: the request
    of every other operation started later carries it, a GET as well. *)
Theorem view_body_stays :
  forall (self : Jenkins) (name config : string) (ops : list operation) (op : operation),
    Forall (fun op => sets_body op = false) ops ->
    sets_body op = false ->
    sent_body (start op (start_all ops (View.create self name config).1)).2 = Some config /\
    sent_body (start op (start_all ops (View.update self name config).1)).2 = Some config.
Proof.
  intros self name config ops op Hops Hop.
  assert (forall self0 : Jenkins,
            opts_body (opts (start_all ops self0)) = opts_body (opts self0)) as Hkeep.
  { induction Hops as [|op' ops Hop' Hops IH]; intros self0; cbn [start_all]; [reflexivity |].
    rewrite IH. now apply start_keeps_body. }
  split; rewrite (proj2 (start_keeps_body op _ Hop)), Hkeep; reflexivity.
Qed.

Lemma view_body_stays_witness :
  sent_body (start Dashboard
               (start_all [Build "job1" None; Queue]
                  (View.create (new_Jenkins None None) "view1" "<view/>").1)).2 =
  Some "<view/>".
Proof.
  apply (view_body_stays (new_Jenkins None None) "view1" "<view/>"
           [Build "job1" None; Queue] Dashboard).
  - repeat constructor.
  - reflexivity.
Defined.

(** ** Build parameters *)

Lemma includes_char_cons (sep c : ascii) (s : string) :
  JsString.includes (String sep EmptyString) (String c s) = false <->
  c <> sep /\ JsString.includes (String sep EmptyString) s = false.
Proof.
  cbn [JsString.includes String.prefix].
  destruct (ascii_dec sep c) as [->|Hne].
  - destruct s; cbn; split; [discriminate | tauto | discriminate | tauto].
  - cbn [orb]. split; [intros H; split; [congruence | exact H] | tauto].
Qed.

Lemma includes_char_app (sep : ascii) (a b : string) :
  JsString.includes (String sep EmptyString) a = false ->
  JsString.includes (String sep EmptyString) b = false ->
  JsString.includes (String sep EmptyString) (a +:+ b) = false.
Proof.
  intros Ha Hb. induction a as [|c a IH]; [exact Hb |].
  apply includes_char_cons in Ha as [Hc Ha].
  change (String c a +:+ b) with (String c (a +:+ b)).
  apply includes_char_cons. split; [exact Hc | now apply IH].
Qed.

(** A string without the separator is one piece. *)
Lemma split_plain (sep : ascii) (s : string) :
  JsString.includes (String sep EmptyString) s = false -> JsString.split sep s = [s].
Proof.
  induction s as [|c s IH]; intros H; [reflexivity |].
  apply includes_char_cons in H as [Hc H]. cbn [JsString.split].
  destruct (Ascii.eqb_spec c sep); [contradiction |]. now rewrite IH.
Qed.

(** The first piece ends at the first separator. *)
Lemma split_at (sep : ascii) (a b : string) :
  JsString.includes (String sep EmptyString) a = false ->
  JsString.split sep (a +:+ String sep b) = a :: JsString.split sep b.
Proof.
  induction a as [|c a IH]; intros H.
  - cbn. now rewrite Ascii.eqb_refl.
  - apply includes_char_cons in H as [Hc H].
    change (String c a +:+ String sep b) with (String c (a +:+ String sep b)).
    cbn [JsString.split]. destruct (Ascii.eqb_spec c sep); [contradiction |].
    now rewrite IH.
Qed.

Lemma append_not_empty (a : string) (c : ascii) (b : string) :
  JsString.is_empty (a +:+ String c b) = false.
Proof. now destruct a. Qed.

Lemma split_parameter_string (kv : string * string) (kvs : list (string * string)) :
  Forall plain (kv :: kvs) ->
  JsString.split "&" (parameter_string (kv :: kvs)) =
  (fun kv => kv.1 +:+ "=" +:+ kv.2) <$> kv :: kvs.
Proof.
  revert kv. induction kvs as [|kv' kvs IH]; intros [k v] Hall;
    apply Forall_cons in Hall as [(Hk & _ & Hv & _) Hall].
  - cbn [parameter_string]. rewrite append_empty. apply split_plain.
    apply includes_char_app; [exact Hk |]. now apply (includes_char_app _ "=").
  - cbn [parameter_string] in *. rewrite fmap_cons, <- (IH kv' Hall).
    apply (split_at "&" (k +:+ "=" +:+ v)).
    apply includes_char_app; [exact Hk |]. now apply (includes_char_app _ "=").
Qed.

(** X8: of parameters written [key1=value1&key2=value2], whose keys and
    values hold neither [&] nor [=], [build] sends the names and values, in
    the order in which they are written. *)
Theorem build_parameters_read_back :
  forall kvs : list (string * string),
    Forall plain kvs ->
    build_parameters (Some (parameter_string kvs)) = (fun kv => (kv.1, Some kv.2)) <$> kvs.
Proof.
  intros [|[k v] kvs] Hall; [reflexivity |].
  unfold build_parameters.
  assert (JsString.is_empty (parameter_string ((k, v) :: kvs)) = false) as ->.
  { cbn [parameter_string]. rewrite append_assoc. apply append_not_empty. }
  rewrite (split_parameter_string _ _ Hall), <- list_fmap_compose.
  apply Forall_fmap_ext_1. eapply Forall_impl; [exact Hall |].
  intros [k' v'] (_ & Hk & _ & Hv). cbn [compose fst snd].
  change (k' +:+ "=" +:+ v') with (k' +:+ String "=" v').
  rewrite (split_at "=" k' v' Hk), (split_plain "=" v' Hv). reflexivity.
Qed.

Lemma build_parameters_read_back_witness :
  build_parameters (Some "k1=v1&k2=v2") = [("k1", Some "v1"); ("k2", Some "v2")].
Proof.
  apply (build_parameters_read_back [("k1", "v1"); ("k2", "v2")]).
  repeat constructor.
Defined.

(** X9: what [build] does not read.  A parameter without [=] is sent
    with its value undefined, and of a parameter with more than one [=] the
    value ends at the second: what follows is dropped. *)
Theorem build_parameters_limits :
  (forall param : string,
      param <> EmptyString ->
      JsString.includes "&" param = false ->
      JsString.includes "=" param = false ->
      build_parameters (Some param) = [(param, None)]) /\
  (forall k v rest : string,
      plain (k, v) ->
      JsString.includes "&" rest = false ->
      build_parameters (Some (k +:+ "=" +:+ v +:+ "=" +:+ rest)) = [(k, Some v)]).
Proof.
  split.
  - intros param Hne Hamp Heq. unfold build_parameters.
    destruct param as [|c param]; [contradiction |]. cbn [JsString.is_empty].
    rewrite (split_plain "&" _ Hamp). cbn [fmap list_fmap].
    now rewrite (split_plain "=" _ Heq).
  - intros k v rest (Hk & Hk' & Hv & Hv') Hrest. cbn [fst snd] in *. unfold build_parameters.
    change (k +:+ "=" +:+ v +:+ "=" +:+ rest)
      with (k +:+ String "=" (v +:+ String "=" rest)).
    rewrite append_not_empty, split_plain.
    + cbn [fmap list_fmap].
      rewrite (split_at "=" k _ Hk'), (split_at "=" v _ Hv').
      now destruct (JsString.split "=" rest).
    + apply includes_char_app; [exact Hk |]. apply (includes_char_app _ "="); [reflexivity |].
      apply includes_char_app; [exact Hv |]. now apply (includes_char_app _ "=").
Qed.

Lemma build_parameters_limits_witness :
  build_parameters (Some "verbose") = [("verbose", None)] /\
  build_parameters (Some ("expr" +:+ "=" +:+ "a" +:+ "=" +:+ "b")) = [("expr", Some "a")].
Proof.
  split.
  - apply (proj1 build_parameters_limits); [discriminate | reflexivity | reflexivity].
  - apply (proj2 build_parameters_limits); [repeat split | reflexivity].
Defined.

(** ** Job names from urls *)

(** A pattern that matches at no suffix is found nowhere. *)
Lemma search_none (p : Regex.pattern) (s : string) :
  (forall u t, s = u +:+ t -> Regex.match_here p t = None) -> Regex.search p s = None.
Proof.
  induction s as [|c s IH]; intros H; cbn [Regex.search].
  - now rewrite (H EmptyString EmptyString).
  - rewrite (H EmptyString (String c s)) by reflexivity.
    rewrite IH; [reflexivity |]. intros u t ->. now apply (H (String c u)).
Qed.

(** Without [/job/], [/.*\/job\//] changes nothing. *)
Lemma replace_job_absent (url : string) :
  JsString.includes "/job/" url = false ->
  Regex.replace (Regex.Star Regex.Dot :: Regex.literal "/job/") EmptyString url = url.
Proof.
  intros H. unfold Regex.replace. rewrite search_none; [reflexivity |].
  intros u t ->. cbn [Regex.match_here]. apply match_star_none.
  intros u' t' ->. apply match_literal_none.
  apply (includes_suffix "/job/" (u +:+ u')). now rewrite append_assoc.
Qed.

(** [/\/.*/] leaves what stands before the first [/]. *)
Lemma replace_slash_on (s : string) :
  JsString.no_line_terminator s = true ->
  Regex.replace (Regex.One (Regex.Lit "/") :: Regex.Star Regex.Dot :: []) EmptyString s =
  Spec.upto_slash s.
Proof.
  unfold Regex.replace. induction s as [|c s IH]; intros Hs; [reflexivity |].
  cbn [JsString.no_line_terminator] in Hs. apply andb_true_iff in Hs as [_ Hs].
  cbn [Regex.search Regex.match_here Regex.atom_matches Spec.upto_slash].
  destruct (Ascii.eqb c "/").
  - now rewrite (match_star_all s Hs).
  - specialize (IH Hs).
    destruct (Regex.search _ s) as [[before rest]|].
    + change (String c before +:+ EmptyString +:+ rest)
        with (String c (before +:+ EmptyString +:+ rest)).
      now rewrite IH.
    + now f_equal.
Qed.

(** X10: of a url without line terminator, the name that the executor
    reader extracts is what stands between the last [/job/] and the next
    [/], or the end of the url when no [/] follows; of a url without [/job/]
    it is what stands before the first [/] of the url. *)
Theorem running_job_name_of_url :
  (forall pre tail : string,
      JsString.no_line_terminator pre = true ->
      JsString.no_line_terminator tail = true ->
      JsString.includes "/job/" ("/" +:+ tail) = false ->
      running_job_name (pre +:+ "/job/" +:+ tail) = Spec.upto_slash tail) /\
  (forall url : string,
      JsString.no_line_terminator url = true ->
      JsString.includes "/job/" url = false ->
      running_job_name url = Spec.upto_slash url).
Proof.
  split.
  - intros pre tail Hpre Htail Hlast. unfold running_job_name.
    rewrite replace_upto_last_job by assumption. now apply replace_slash_on.
  - intros url Hurl Habsent. unfold running_job_name.
    rewrite replace_job_absent by assumption. now apply replace_slash_on.
Qed.

Lemma running_job_name_of_url_witness :
  running_job_name ("http://localhost:8080" +:+ "/job/" +:+ "myjob") = "myjob" /\
  running_job_name "http://localhost:8080/queue/item/3" = "http:".
Proof.
  split.
  - apply (proj1 running_job_name_of_url "http://localhost:8080" "myjob"); reflexivity.
  - apply (proj2 running_job_name_of_url "http://localhost:8080/queue/item/3"); reflexivity.
Defined.

(** ** Statuses *)

Lemma upper_char_stable (c : ascii) :
  JsString.upper_char (JsString.upper_char c) = JsString.upper_char c.
Proof. destruct c as [[] [] [] [] [] [] [] []]; reflexivity. Qed.

Lemma toUpperCase_stable (s : string) :
  JsString.toUpperCase (JsString.toUpperCase s) = JsString.toUpperCase s.
Proof.
  induction s as [|c s IH]; cbn; [reflexivity |]. now rewrite upper_char_stable, IH.
Qed.

(** The strings that [_colorStatus] returns are in upper case. *)
Lemma colorStatus_upper (color s : string) :
  _colorStatus color = Str s -> JsString.toUpperCase s = s.
Proof.
  unfold _colorStatus, get. rewrite STATUS_lookup.
  set (token := Regex.replace _ _ color).
  destruct (Spec.known token) as [v|] eqn:Hknown.
  - cbn [truthy]. rewrite (known_truthy token v Hknown). intros [= <-].
    revert Hknown. unfold Spec.known.
    repeat (match goal with |- context [if ?b then _ else _] => destruct b end);
      intros [= <-]; reflexivity.
  - destruct (decide (token ∈ Object_prototype)); [discriminate |].
    intros [= <-]. apply toUpperCase_stable.
Qed.

(** X11: a status that [_colorStatus] returns as a string is in upper
    case, whatever the colour: a status with a lower-case letter is the
    status of no job of the dashboard. *)
Theorem colorStatus_upper_case :
  forall (token s : string) (jobs : option (list job_json)),
    (_colorStatus token = Str s -> JsString.toUpperCase s = s) /\
    (JsString.toUpperCase s <> s -> ~ present s (dashboard_data jobs)).
Proof.
  intros token s jobs. split; [apply colorStatus_upper |].
  intros Hlower Hpresent. apply Hlower. unfold present in Hpresent.
  apply list_elem_of_fmap in Hpresent as (item & Hs & Hin).
  destruct jobs as [js|]; cbn in Hin; [| now apply elem_of_nil in Hin].
  apply list_elem_of_fmap in Hin as (j & -> & _). cbn in Hs.
  now apply (colorStatus_upper (color j)).
Qed.

Lemma colorStatus_upper_case_witness :
  JsString.toUpperCase "fail" <> "fail" /\
  ~ present "fail" (dashboard_data (Some [ {| job_name := "job1"; color := "red" |} ])).
Proof.
  split; [discriminate |].
  apply (proj2 (colorStatus_upper_case EmptyString "fail" _)). discriminate.
Defined.

(** The aggregate status, from which of the four statuses are present. *)
Lemma dashboardStatus_by_presence (jobName : option string) (data : list job_summary) :
  _dashboardStatus jobName data =
  let jobs := restrict jobName data in
  if bool_decide (present "FAIL" jobs) then Some "FAIL"
  else if bool_decide (present "WARN" jobs) then Some "WARN"
  else if bool_decide (present "ABORTED" jobs) then Some "ABORTED"
  else if bool_decide (present "OK" jobs) then Some "OK"
  else None.
Proof.
  unfold _dashboardStatus, dashboard_STATUS. now rewrite !first_present_step.
Qed.

Lemma restrict_same (jobName : option string) (data data' : list job_summary) :
  (forall item, item ∈ data <-> item ∈ data') ->
  forall item, item ∈ restrict jobName data <-> item ∈ restrict jobName data'.
Proof.
  intros Hsame item. unfold restrict.
  destruct jobName as [n|]; [destruct (JsString.is_empty n) |]; try apply Hsame.
  rewrite !list_elem_of_In, !filter_In, <- !list_elem_of_In, Hsame. reflexivity.
Qed.

(** X12: the aggregate status depends on which jobs there are, and not
    on their order or on how often each is listed. *)
Theorem dashboardStatus_of_set :
  forall (jobName : option string) (data data' : list job_summary),
    (forall item, item ∈ data <-> item ∈ data') ->
    _dashboardStatus jobName data = _dashboardStatus jobName data'.
Proof.
  intros jobName data data' Hsame. rewrite !dashboardStatus_by_presence. cbv zeta.
  assert (forall s, present s (restrict jobName data) <->
                    present s (restrict jobName data')) as Hpresent.
  { intros s. unfold present. rewrite !list_elem_of_fmap.
    split; intros (item & Hs & Hin); exists item; (split; [exact Hs |]);
      now apply (restrict_same jobName data data' Hsame). }
  now rewrite !(bool_decide_ext _ _ (Hpresent _)).
Qed.

Lemma dashboardStatus_of_set_witness :
  let ok := {| status := Str "OK"; name := "job1" |} in
  let warn := {| status := Str "WARN"; name := "job2" |} in
  _dashboardStatus None [ok; warn; ok] = _dashboardStatus None [warn; ok].
Proof.
  cbv zeta. apply dashboardStatus_of_set. intros item.
  rewrite !elem_of_cons, !elem_of_nil. tauto.
Defined.

(** ** Executor reader *)


(** An executor has an entry unless it is busy without a current
    executable. *)
Lemma executor_entry_none (e : executor_json) :
  executor_entry e = None <-> idle e = false /\ currentExecutable e = None.
Proof.
  unfold executor_entry. destruct (idle e), (currentExecutable e); split;
    try discriminate; try tauto; intros [? ?]; discriminate.
Qed.

Lemma executor_entries_none (es : list executor_json) :
  executor_entries es = None <->
  exists e, e ∈ es /\ idle e = false /\ currentExecutable e = None.
Proof.
  induction es as [|e es IH]; cbn [executor_entries].
  - split; [discriminate | intros (e & Hin & _); now apply elem_of_nil in Hin].
  - destruct (executor_entry e) as [st|] eqn:He.
    + destruct (executor_entries es) as [sts|].
      * split; [discriminate |]. intros (e' & Hin & Hbusy).
        apply elem_of_cons in Hin as [-> | Hin].
        -- apply executor_entry_none in Hbusy. congruence.
        -- assert (Some sts = None) by (apply IH; eauto). discriminate.
      * split; [| reflexivity]. intros _.
        destruct (proj1 IH eq_refl) as (e' & Hin & Hbusy).
        exists e'. split; [now right | exact Hbusy].
    + split; [| reflexivity]. intros _. exists e. split; [left |].
      now apply executor_entry_none.
Qed.

Lemma executor_data_none (computers : list computer_json) :
  forall data0,
    executor_data computers data0 = None <->
    exists c, c ∈ computers /\ executor_entries (executors c) = None.
Proof.
  induction computers as [|c cs IH]; intros data0; cbn [executor_data].
  - split; [discriminate | intros (c & Hin & _); now apply elem_of_nil in Hin].
  - destruct (executor_entries (executors c)) as [sts|] eqn:Hc.
    + rewrite IH. split; intros (c' & Hin & Hnone).
      * exists c'. split; [now right | exact Hnone].
      * apply elem_of_cons in Hin as [-> | Hin]; [congruence | eauto].
    + split; [| reflexivity]. intros _. exists c. split; [left | exact Hc].
Qed.




(** X14: the handler of the executor reader throws, and the callback is
    not called, exactly when some executor is busy and has no current
    executable. *)
Theorem executor_reader_throws :
  forall (JSON_parse : string -> option json) (unexpected : response -> error)
         (self : Jenkins) (result : response) (computers : list computer_json),
    statusCode result = 200 ->
    JSON_parse (body result) = Some (ComputerJson computers) ->
    deliver JSON_parse unexpected (opts (executor self).1) (Answered result) = Throws <->
    exists c e, c ∈ computers /\ e ∈ executors c /\
                idle e = false /\ currentExecutable e = None.
Proof.
  intros JSON_parse unexpected self result computers Hcode Hjson.
  unfold deliver, bag_dispatch. cbn -[String.append].
  rewrite Hcode, lookup_insert_eq. unfold react. rewrite Hjson.
  destruct (executor_data computers ∅) as [data|] eqn:Hdata.
  - split; [discriminate |]. intros (c & e & Hc & He & Hbusy).
    assert (executor_data computers ∅ = None) as Hnone; [| congruence].
    apply executor_data_none. exists c. split; [exact Hc |].
    apply executor_entries_none. eauto.
  - split; [| reflexivity]. intros _.
    apply executor_data_none in Hdata as (c & Hc & Hnone).
    apply executor_entries_none in Hnone as (e & He & Hbusy). eauto.
Qed.

Lemma executor_reader_throws_witness :
  let busy := {| idle := false; likelyStuck := false; progress := 42;
                 currentExecutable := None |} in
  let computers := [ {| displayName := "master"; executors := [busy] |} ] in
  deliver (fun _ => Some (ComputerJson computers)) (fun _ => Error "unexpected")
    (opts (executor (new_Jenkins None None)).1) (Answered (Response 200 ∅ "{}")) = Throws.
Proof.
  cbv zeta.
  apply (executor_reader_throws
           (fun _ => Some (ComputerJson
                             [ {| displayName := "master";
                                  executors := [ {| idle := false; likelyStuck := false;
                                                    progress := 42;
                                                    currentExecutable := None |} ] |} ]))
           _ _ (Response 200 ∅ "{}") _ eq_refl eq_refl).
  eexists _, _. split; [left |]. split; [left |]. split; reflexivity.
Defined.

(** ** Console stream, in general *)

Lemma chunks_cons (r : response) (rs : list response) :
  chunks (r :: rs) = (events (emit_body r) ++ chunks rs)%list.
Proof.
  unfold chunks, emit_body. cbn [fmap list_fmap List.filter].
  now destruct (JsString.is_empty (body r)).
Qed.

Lemma emit_body_events (r : response) (tr : list action) :
  events (emit_body r ++ tr) = (events (emit_body r) ++ events tr)%list /\
  callbacks (emit_body r ++ tr) = callbacks tr /\
  requests (emit_body r ++ tr) = requests tr.
Proof.
  unfold events, callbacks, requests. rewrite !omap_app.
  destruct (emit_body_quiet r) as (Hcb & Hreq & _).
  unfold callbacks, requests in *. now rewrite Hcb, Hreq.
Qed.

(** The loop while every answer announces more data: one chunk per
    answer with a body, one poll per answer and one more, no end and no
    callback. *)
Lemma whilst_pending (url : string) (interval : option Z) (rs : list response) :
  forall result : response,
    more_data result = true ->
    Forall (fun r => more_data r = true) rs ->
    events (whilst url interval result (Answered <$> rs)) = chunks rs /\
    callbacks (whilst url interval result (Answered <$> rs)) = [] /\
    requests (whilst url interval result (Answered <$> rs)) = poll url <$> result :: rs.
Proof.
  induction rs as [|r rs IH]; intros result Hmore Hall; cbn [fmap list_fmap whilst];
    rewrite Hmore.
  - repeat split.
  - apply Forall_cons in Hall as [Hr Hall]. destruct (IH r Hr Hall) as (He & Hc & Hq).
    destruct (emit_body_events r
                (SetTimeout (interval_of interval) :: whilst url interval r (Answered <$> rs)))
      as (He' & Hc' & Hq').
    rewrite chunks_cons. split; [| split].
    + change (events (Sends (poll url result) :: ?tr)) with (events tr).
      rewrite He'. f_equal. exact He.
    + change (callbacks (Sends (poll url result) :: ?tr)) with (callbacks tr).
      rewrite Hc'. exact Hc.
    + change (requests (Sends (poll url result) :: ?tr)) with (poll url result :: requests tr).
      rewrite Hq'. f_equal. exact Hq.
Qed.

(** The loop up to an answer that announces no more data: the chunks, the
    end, one callback without error, and one poll per answer. *)
Lemma whilst_completes (url : string) (interval : option Z) (rs : list response) :
  forall result last : response,
    more_data result = true ->
    Forall (fun r => more_data r = true) rs ->
    more_data last = false ->
    events (whilst url interval result (Answered <$> (rs ++ [last])%list)) =
      (chunks (rs ++ [last])%list ++ [OnEnd])%list /\
    callbacks (whilst url interval result (Answered <$> (rs ++ [last])%list)) =
      [(None, Undefined)] /\
    requests (whilst url interval result (Answered <$> (rs ++ [last])%list)) =
      poll url <$> result :: rs.
Proof.
  induction rs as [|r rs IH]; intros result last Hmore Hall Hlast;
    cbn [app fmap list_fmap whilst]; rewrite Hmore.
  - rewrite Hlast.
    destruct (emit_body_events last
                [SetTimeout (interval_of interval); Emits OnEnd; Callback None Undefined])
      as (He' & Hc' & Hq').
    rewrite chunks_cons. split; [| split].
    + change (events (Sends (poll url result) :: ?tr)) with (events tr).
      change (chunks []) with (@nil stream_event).
      rewrite He', app_nil_r. reflexivity.
    + change (callbacks (Sends (poll url result) :: ?tr)) with (callbacks tr).
      rewrite Hc'. reflexivity.
    + change (requests (Sends (poll url result) :: ?tr)) with (poll url result :: requests tr).
      rewrite Hq'. reflexivity.
  - apply Forall_cons in Hall as [Hr Hall].
    destruct (IH r last Hr Hall Hlast) as (He & Hc & Hq).
    destruct (emit_body_events r
                (SetTimeout (interval_of interval) ::
                 whilst url interval r (Answered <$> (rs ++ [last])%list)))
      as (He' & Hc' & Hq').
    rewrite chunks_cons. split; [| split].
    + change (events (Sends (poll url result) :: ?tr)) with (events tr).
      rewrite He', <- app_assoc. f_equal. exact He.
    + change (callbacks (Sends (poll url result) :: ?tr)) with (callbacks tr).
      rewrite Hc'. exact Hc.
    + change (requests (Sends (poll url result) :: ?tr)) with (poll url result :: requests tr).
      rewrite Hq'. f_equal. exact Hq.
Qed.

(** The trace after a first answer 200, as events, callbacks and requests. *)
Lemma consoleStream_parts
    (JSON_parse : string -> option json) (unexpected : response -> error)
    (self : Jenkins) (jobName : string) (interval : option Z)
    (first : response) (answers : list transport) :
  statusCode first = 200 ->
  let tr := (consoleStream JSON_parse unexpected self jobName interval
               (Answered first :: answers)).2 in
  let loop := whilst (consoleStream_url self jobName) interval first answers in
  events tr = (events (emit_body first) ++ events loop)%list /\
  callbacks tr = callbacks loop /\
  requests tr =
    {| method := "get"; target := consoleStream_url self jobName;
       qs := Some [("start", QNum 0)];
       sent_headers := opts_headers (opts self); sent_body := opts_body (opts self) |} ::
    requests loop.
Proof.
  intros Hcode tr loop. subst tr loop. rewrite consoleStream_first by exact Hcode.
  destruct (emit_body_events first
              (whilst (consoleStream_url self jobName) interval first answers))
    as (He & Hc & Hq).
  split; [| split].
  - change (events (Sends ?r :: ?tr)) with (events tr). exact He.
  - change (callbacks (Sends ?r :: ?tr)) with (callbacks tr). exact Hc.
  - change (requests (Sends ?r :: ?tr)) with (r :: requests tr). now rewrite Hq.
Qed.

(** X15: a stream whose first answer is a 200 and whose answers announce
    more data until one does not, emits the bodies that are not empty as
    data, in the order of the answers and whatever the status codes of the
    later answers, then the end; it then calls back once, without error, and
    has sent as many requests as it got answers. *)
Theorem consoleStream_runs_to_end :
  forall (JSON_parse : string -> option json) (unexpected : response -> error)
         (self : Jenkins) (jobName : string) (interval : option Z)
         (rs : list response) (last : response),
    Forall (fun r => more_data r = true) rs ->
    more_data last = false ->
    statusCode (hd last rs) = 200 ->
    let tr := (consoleStream JSON_parse unexpected self jobName interval
                 (Answered <$> (rs ++ [last])%list)).2 in
    events tr = (chunks (rs ++ [last]) ++ [OnEnd])%list /\
    callbacks tr = [(None, Undefined)] /\
    length (requests tr) = length (rs ++ [last])%list.
Proof.
  intros JSON_parse unexpected self jobName interval rs last Hall Hlast Hcode tr. subst tr.
  destruct rs as [|first rs]; cbn [hd app fmap list_fmap] in *.
  - destruct (consoleStream_parts JSON_parse unexpected self jobName interval last []
                Hcode) as (He & Hc & Hq).
    rewrite He, Hc, Hq. cbn [whilst]. rewrite Hlast, chunks_cons.
    change (chunks []) with (@nil stream_event). rewrite app_nil_r. repeat split.
  - apply Forall_cons in Hall as [Hfirst Hall].
    destruct (consoleStream_parts JSON_parse unexpected self jobName interval first
                (Answered <$> (rs ++ [last])%list) Hcode) as (He & Hc & Hq).
    destruct (whilst_completes (consoleStream_url self jobName) interval rs first last
                Hfirst Hall Hlast) as (He' & Hc' & Hq').
    rewrite He, Hc, Hq, He', Hc', Hq', chunks_cons, app_assoc.
    repeat split. cbn. now rewrite length_fmap, length_app, Nat.add_1_r.
Qed.

Lemma consoleStream_runs_to_end_witness :
  let more : gmap string string := {[ "x-more-data" := "true"; "x-text-size" := "10" ]} in
  let tr := (consoleStream (fun _ => None) (fun _ => Error "unexpected")
               (new_Jenkins None None) "job1" None
               (Answered <$>
                  ([Response 200 more "a"; Response 200 more EmptyString] ++
                   [Response 404 ∅ "gone"])%list)).2 in
  events tr = [OnData "a"; OnData "gone"; OnEnd] /\
  callbacks tr = [(None, Undefined)] /\
  length (requests tr) = 3%nat.
Proof.
  cbv zeta.
  apply (consoleStream_runs_to_end (fun _ => None) (fun _ => Error "unexpected")
           (new_Jenkins None None) "job1" None
           [ Response 200 {[ "x-more-data" := "true"; "x-text-size" := "10" ]} "a";
             Response 200 {[ "x-more-data" := "true"; "x-text-size" := "10" ]} EmptyString ]
           (Response 404 ∅ "gone")).
  - repeat constructor.
  - reflexivity.
  - reflexivity.
Defined.

(** X16: the first request of such a stream asks for the text from 0,
    and every poll asks for the text from the size that the header
    [x-text-size] of the answer before it gives, read as a decimal number;
    all requests are GETs of the progressive text of the job. *)
Theorem consoleStream_offsets :
  forall (JSON_parse : string -> option json) (unexpected : response -> error)
         (self : Jenkins) (jobName : string) (interval : option Z)
         (rs : list response) (last : response),
    Forall (fun r => more_data r = true) rs ->
    more_data last = false ->
    statusCode (hd last rs) = 200 ->
    let tr := (consoleStream JSON_parse unexpected self jobName interval
                 (Answered <$> (rs ++ [last])%list)).2 in
    qs <$> requests tr =
      Some [("start", QNum 0)] ::
      ((fun r => Some [("start", parseInt (headers r !! "x-text-size"))]) <$> rs) /\
    Forall (fun r => method r = "get" /\
                     target r = url self +:+ "/job/" +:+ jobName +:+
                                "/lastBuild/logText/progressiveText")
      (requests tr).
Proof.
  intros JSON_parse unexpected self jobName interval rs last Hall Hlast Hcode tr. subst tr.
  destruct rs as [|first rs]; cbn [hd app fmap list_fmap] in *.
  - destruct (consoleStream_parts JSON_parse unexpected self jobName interval last []
                Hcode) as (_ & _ & Hq).
    rewrite Hq. cbn [whilst]. rewrite Hlast. split; [reflexivity |].
    repeat constructor.
  - apply Forall_cons in Hall as [Hfirst Hall].
    destruct (consoleStream_parts JSON_parse unexpected self jobName interval first
                (Answered <$> (rs ++ [last])%list) Hcode) as (_ & _ & Hq).
    destruct (whilst_completes (consoleStream_url self jobName) interval rs first last
                Hfirst Hall Hlast) as (_ & _ & Hq').
    rewrite Hq, Hq'. split.
    + rewrite !fmap_cons, <- list_fmap_compose. reflexivity.
    + constructor; [split; reflexivity |].
      apply Forall_fmap, Forall_true. intros r. split; reflexivity.
Qed.

Lemma consoleStream_offsets_witness :
  let tr := (consoleStream (fun _ => None) (fun _ => Error "unexpected")
               (new_Jenkins None None) "job1" None
               (Answered <$>
                  ([ Response 200 {[ "x-more-data" := "true"; "x-text-size" := "10" ]} "a";
                     Response 200 {[ "x-more-data" := "true" ]} "b" ] ++
                   [Response 200 ∅ "c"])%list)).2 in
  qs <$> requests tr =
    [Some [("start", QNum 0)]; Some [("start", QNum 10)]; Some [("start", QNaN)]].
Proof.
  cbv zeta.
  refine (eq_trans
            (proj1 (consoleStream_offsets (fun _ => None) (fun _ => Error "unexpected")
                      (new_Jenkins None None) "job1" None
                      [ Response 200 {[ "x-more-data" := "true"; "x-text-size" := "10" ]} "a";
                        Response 200 {[ "x-more-data" := "true" ]} "b" ]
                      (Response 200 ∅ "c") _ _ _)) _).
  - repeat constructor.
  - reflexivity.
  - reflexivity.
  - vm_compute. reflexivity.
Defined.

(** X17: as long as every answer so far announces more data, the first
    being a 200, the stream has neither ended nor called back, has emitted
    the bodies so far, and has sent exactly one request more than it has
    answers: one poll is in flight. *)
Theorem consoleStream_one_in_flight :
  forall (JSON_parse : string -> option json) (unexpected : response -> error)
         (self : Jenkins) (jobName : string) (interval : option Z)
         (first : response) (rs : list response),
    statusCode first = 200 ->
    Forall (fun r => more_data r = true) (first :: rs) ->
    let tr := (consoleStream JSON_parse unexpected self jobName interval
                 (Answered <$> first :: rs)).2 in
    events tr = chunks (first :: rs) /\
    callbacks tr = [] /\
    length (requests tr) = S (length (first :: rs)).
Proof.
  intros JSON_parse unexpected self jobName interval first rs Hcode Hall tr. subst tr.
  apply Forall_cons in Hall as [Hfirst Hall]. rewrite fmap_cons.
  destruct (consoleStream_parts JSON_parse unexpected self jobName interval first
              (Answered <$> rs) Hcode) as (He & Hc & Hq).
  destruct (whilst_pending (consoleStream_url self jobName) interval rs first Hfirst Hall)
    as (He' & Hc' & Hq').
  rewrite He, Hc, Hq, He', Hc', Hq', chunks_cons.
  repeat split. cbn. now rewrite length_fmap.
Qed.

Lemma consoleStream_one_in_flight_witness :
  let more : gmap string string := {[ "x-more-data" := "true"; "x-text-size" := "10" ]} in
  let tr := (consoleStream (fun _ => None) (fun _ => Error "unexpected")
               (new_Jenkins None None) "job1" None
               (Answered <$> [Response 200 more "a"; Response 200 more "b"])).2 in
  events tr = [OnData "a"; OnData "b"] /\ callbacks tr = [] /\
  length (requests tr) = 3%nat.
Proof.
  cbv zeta.
  apply (consoleStream_one_in_flight (fun _ => None) (fun _ => Error "unexpected")
           (new_Jenkins None None) "job1" None
           (Response 200 {[ "x-more-data" := "true"; "x-text-size" := "10" ]} "a")
           [Response 200 {[ "x-more-data" := "true"; "x-text-size" := "10" ]} "b"]).
  - reflexivity.
  - repeat constructor.
Defined.

(** X18: when the first request of a stream fails, or is answered 404,
    the callback receives the error, of the transport or of the job not
    existing; the stream emits nothing, not even the end, and no poll is
    sent, whatever the server would answer later. *)
Theorem consoleStream_setup_failure :
  forall (JSON_parse : string -> option json) (unexpected : response -> error)
         (self : Jenkins) (jobName : string) (interval : option Z)
         (err : error) (hs : gmap string string) (b : string) (later : list transport),
    let failed := (consoleStream JSON_parse unexpected self jobName interval
                     (Failed err :: later)).2 in
    let missing := (consoleStream JSON_parse unexpected self jobName interval
                      (Answered (Response 404 hs b) :: later)).2 in
    events failed = [] /\ callbacks failed = [(Some err, Undefined)] /\
    length (requests failed) = 1%nat /\
    events missing = [] /\
    callbacks missing =
      [(Some (Error ("Job " +:+ jobName +:+ " does not exist")), Undefined)] /\
    length (requests missing) = 1%nat.
Proof.
  intros. subst failed missing. unfold consoleStream, deliver, bag_dispatch.
  cbn -[String.append whilst]. simplify_map_eq. repeat split.
Qed.

(** ** Triggering many builds, at the edges *)

Lemma filter_none {A : Type} (f : A -> bool) (l : list A) :
  (forall x, x ∈ l -> f x = false) -> List.filter f l = [].
Proof.
  induction l as [|x l IH]; intros H; cbn [List.filter]; [reflexivity |].
  rewrite (H x) by left. apply IH. intros y Hy. apply H. now right.
Qed.

(** X19: when no job of the dashboard passes the criteria, [buildBy]
    sends nothing but the dashboard request and calls back at once, without
    error.  This is so for every criteria whose status has a lower-case
    letter, since the statuses of the dashboard are in upper case. *)
Theorem buildBy_nothing_to_build :
  forall (JSON_parse : string -> option json) (unexpected : response -> error)
         (self : Jenkins) (answers : list (nat * transport)),
    (forall criteria t data,
        deliver JSON_parse unexpected (opts (dashboard self).1) t = Calls None (Jobs data) ->
        (forall item, item ∈ data -> criteria_filter (default ∅ criteria) item = false) ->
        (buildBy JSON_parse unexpected self criteria t answers).2 =
          [Sends (dashboard self).2; Callback None Undefined]) /\
    (forall result jobs s,
        statusCode result = 200 ->
        JSON_parse (body result) = Some (DashboardJson jobs) ->
        JsString.toUpperCase s <> s ->
        (buildBy JSON_parse unexpected self (Some {[ "status" := Str s ]})
           (Answered result) answers).2 =
          [Sends (dashboard self).2; Callback None Undefined]).
Proof.
  intros JSON_parse unexpected self answers.
  assert (forall criteria t data,
            deliver JSON_parse unexpected (opts (dashboard self).1) t = Calls None (Jobs data) ->
            (forall item, item ∈ data -> criteria_filter (default ∅ criteria) item = false) ->
            (buildBy JSON_parse unexpected self criteria t answers).2 =
              [Sends (dashboard self).2; Callback None Undefined]) as Hgeneral.
  { intros criteria t data Hdash Hnone. unfold buildBy.
    change (dashboard self) with ((dashboard self).1, (dashboard self).2) at 1.
    cbv beta iota. rewrite Hdash, (filter_none _ _ Hnone). reflexivity. }
  split; [exact Hgeneral |].
  intros result jobs s Hcode Hjson Hlower.
  apply (Hgeneral _ _ (dashboard_data jobs)); [now apply dashboard_read |].
  intros item Hin.
  change (criteria_filter {[ "status" := Str s ]} item = false).
  rewrite criteria_filter_status.
  apply bool_decide_eq_false_2. intros Hs. apply Hlower.
  destruct jobs as [js|]; cbn in Hin; [| now apply elem_of_nil in Hin].
  apply list_elem_of_fmap in Hin as (j & -> & _). cbn in Hs.
  now apply (colorStatus_upper (color j)).
Qed.

Lemma buildBy_nothing_to_build_witness :
  let self := new_Jenkins None None in
  (buildBy (fun _ => Some (DashboardJson (Some [ {| job_name := "job1"; color := "red" |} ])))
     (fun _ => Error "unexpected") self (Some {[ "status" := Str "fail" ]})
     (Answered (Response 200 ∅ "{}")) []).2 =
  [Sends (dashboard self).2; Callback None Undefined].
Proof.
  cbv zeta.
  apply (proj2 (buildBy_nothing_to_build _ _ _ _) (Response 200 ∅ "{}")
           (Some [ {| job_name := "job1"; color := "red" |} ]) "fail");
    [reflexivity | reflexivity | discriminate].
Defined.

(** X20: when the dashboard cannot be read, [buildBy] triggers no build
    and hands the error to its callback, once: the error of the transport,
    or the one that the handler of the answer makes. *)
Theorem buildBy_dashboard_error :
  forall (JSON_parse : string -> option json) (unexpected : response -> error)
         (self : Jenkins) (criteria : option (gmap string jsval))
         (answers : list (nat * transport)),
    (forall err,
        (buildBy JSON_parse unexpected self criteria (Failed err) answers).2 =
          [Sends (dashboard self).2; Callback (Some err) Undefined]) /\
    (forall t err d,
        deliver JSON_parse unexpected (opts (dashboard self).1) t = Calls (Some err) d ->
        (buildBy JSON_parse unexpected self criteria t answers).2 =
          [Sends (dashboard self).2; Callback (Some err) Undefined]).
Proof.
  intros JSON_parse unexpected self criteria answers.
  assert (forall t err d,
            deliver JSON_parse unexpected (opts (dashboard self).1) t = Calls (Some err) d ->
            (buildBy JSON_parse unexpected self criteria t answers).2 =
              [Sends (dashboard self).2; Callback (Some err) Undefined]) as Hgeneral.
  { intros t err d Hdash. unfold buildBy.
    change (dashboard self) with ((dashboard self).1, (dashboard self).2) at 1.
    cbv beta iota. now rewrite Hdash. }
  split; [| exact Hgeneral].
  intros err. now apply (Hgeneral (Failed err) err Undefined).
Qed.

Lemma buildBy_dashboard_error_witness :
  let self := new_Jenkins None None in
  (buildBy (fun _ => None) (fun _ => Error "unexpected") self None
     (Answered (Response 403 ∅ EmptyString)) []).2 =
  [Sends (dashboard self).2;
   Callback (Some (Error "Jenkins requires authentication - set username and password in Jenkins URL"))
     Undefined].
Proof.
  cbv zeta.
  apply (proj2 (buildBy_dashboard_error _ _ _ _ _) _ _ Undefined).
  vm_compute. reflexivity.
Defined.

(** ** Discovery, in general *)

Lemma discover_step_timer (host : string) (st : discovery) (e : datagram_event) :
  e <> TimerFired -> timer_pending (discover_step host st e).2 = timer_pending st.
Proof. destruct e as [| | [|] | |]; try reflexivity. contradiction. Qed.

(** X21: nothing clears the timer of [discover]: whatever the socket and
    the parser have reported before, a reply as well, the callback receives
    the error of no instance found when the timer fires. *)
Theorem discover_timeout_always_reported :
  forall (host : string) (es : list datagram_event),
    TimerFired ∈ es ->
    (Some (Error ("Unable to find any Jenkins instance on " +:+ host)), Undefined)
      ∈ callbacks (discover host es).
Proof.
  intros host es Hin. unfold discover.
  change (callbacks (SocketSend ?m ?p ?h :: SetTimeout ?ms :: ?tr)) with (callbacks tr).
  assert (forall st, timer_pending st = true ->
            (Some (Error ("Unable to find any Jenkins instance on " +:+ host)), Undefined)
              ∈ callbacks (discover_run host st es)) as H; [| now apply H].
  induction es as [|e es IH]; intros st Hst; [now apply elem_of_nil in Hin |].
  cbn [discover_run].
  destruct (discover_step host st e) as [acts st'] eqn:Hstep.
  unfold callbacks. rewrite omap_app, elem_of_app.
  destruct (decide (e = TimerFired)) as [-> | Hne].
  - left. cbn in Hstep. rewrite Hst in Hstep. injection Hstep as <- <-. left.
  - right. apply elem_of_cons in Hin as [Heq | Hin]; [congruence |].
    apply (IH Hin).
    pose proof (discover_step_timer host st e Hne) as Hkeep.
    rewrite Hstep in Hkeep. cbn in Hkeep. congruence.
Qed.

Lemma discover_timeout_always_reported_witness :
  (Some (Error "Unable to find any Jenkins instance on localhost"), Undefined)
    ∈ callbacks (discover "localhost"
                   [Sent None; SocketMessage "<hudson/>"; ParserEnd "hudson"; TimerFired]).
Proof.
  apply (discover_timeout_always_reported "localhost"). decided.
Defined.

(** ** Monitor *)

(** X22: one cycle of [monitor] reads the dashboard and calls back with
    the aggregate status of its jobs, restricted to the job given: with no
    job given, a dashboard on which some job is red, building or not, is
    reported as FAIL.  When the request fails, the error reaches the
    callback and no status is computed. *)
Theorem monitor_reports :
  forall (JSON_parse : string -> option json) (unexpected : response -> error)
         (self : Jenkins) (jobName : option string),
    (forall result jobs,
        statusCode result = 200 ->
        JSON_parse (body result) = Some (DashboardJson jobs) ->
        (monitor_notify JSON_parse unexpected self jobName (Answered result)).2 =
          Notifies None (Status (_dashboardStatus jobName (dashboard_data jobs)))) /\
    (forall result jobs j,
        statusCode result = 200 ->
        JSON_parse (body result) = Some (DashboardJson (Some jobs)) ->
        j ∈ jobs -> color j = "red" \/ color j = "red_anime" ->
        (monitor_notify JSON_parse unexpected self None (Answered result)).2 =
          Notifies None (Status (Some "FAIL"))) /\
    (forall err,
        (monitor_notify JSON_parse unexpected self jobName (Failed err)).2 =
          Notifies (Some err) (Passed Undefined)).
Proof.
  intros JSON_parse unexpected self jobName.
  assert (forall name result jobs,
            statusCode result = 200 ->
            JSON_parse (body result) = Some (DashboardJson jobs) ->
            (monitor_notify JSON_parse unexpected self name (Answered result)).2 =
              Notifies None (Status (_dashboardStatus name (dashboard_data jobs)))) as Hread.
  { intros name result jobs Hcode Hjson. unfold monitor_notify.
    change (dashboard self) with ((dashboard self).1, (dashboard self).2) at 1.
    cbv beta iota. cbn [snd].
    now rewrite (dashboard_read JSON_parse unexpected self result jobs Hcode Hjson). }
  split; [apply Hread | split].
  - intros result jobs j Hcode Hjson Hin Hred.
    rewrite (Hread None result (Some jobs) Hcode Hjson).
    rewrite dashboardStatus_by_presence. cbv zeta.
    rewrite bool_decide_eq_true_2; [reflexivity |].
    unfold present, restrict, dashboard_data. rewrite <- list_fmap_compose.
    apply list_elem_of_fmap. exists j. split; [| exact Hin].
    cbn [compose status]. now destruct Hred as [-> | ->].
  - intros err. reflexivity.
Qed.

Lemma monitor_reports_witness :
  (monitor_notify
     (fun _ => Some (DashboardJson (Some [ {| job_name := "job1"; color := "blue" |};
                                           {| job_name := "job2"; color := "red_anime" |} ])))
     (fun _ => Error "unexpected") (new_Jenkins None None) None
     (Answered (Response 200 ∅ "{}"))).2 =
  Notifies None (Status (Some "FAIL")).
Proof.
  apply (proj1 (proj2 (monitor_reports _ _ _ None)) (Response 200 ∅ "{}")
           [ {| job_name := "job1"; color := "blue" |};
             {| job_name := "job2"; color := "red_anime" |} ]
           {| job_name := "job2"; color := "red_anime" |});
    [reflexivity | reflexivity | right; left | now right].
Defined.

(** ** Whose handlers answer the builds of [buildBy] *)

(** [buildBy] once the dashboard is read and some job passes. *)
Lemma buildBy_triggered
    (JSON_parse : string -> option json) (unexpected : response -> error)
    (self : Jenkins) (criteria : option (gmap string jsval)) (t : transport)
    (data : list job_summary) (answers : list (nat * transport)) :
  deliver JSON_parse unexpected (opts (dashboard self).1) t = Calls None (Jobs data) ->
  let items := List.filter (criteria_filter (default ∅ criteria)) data in
  items <> [] ->
  buildBy JSON_parse unexpected self criteria t answers =
  ((trigger (dashboard self).1 items).1,
   Sends (dashboard self).2 ::
   (Sends <$> (trigger (dashboard self).1 items).2) ++
   join JSON_parse unexpected (opts (trigger (dashboard self).1 items).1)
     items [] 0 false answers).
Proof.
  intros Hdash items Hitems. subst items. unfold buildBy.
  change (dashboard self) with ((dashboard self).1, (dashboard self).2) at 1.
  cbv beta iota. rewrite Hdash.
  destruct (List.filter _ data) as [|item items']; [contradiction |].
  now destruct (trigger (dashboard self).1 (item :: items')).
Qed.

(** After the builds are triggered, the handlers of the table are those of
    the job triggered last. *)
Lemma trigger_last (items : list job_summary) :
  forall (self : Jenkins) (item : job_summary),
    last items = Some item ->
    handlers (opts (trigger self items).1) !! 404 = Some (build_notFound (name item)).
Proof.
  induction items as [|item' items IH]; intros self item Hlast; [discriminate |].
  cbn [trigger].
  destruct (build self (name item') None) as [self1 r] eqn:Hb.
  destruct (trigger self1 items) as [self2 rs] eqn:Ht. cbn [fst].
  destruct items as [|item'' items].
  - cbn in Hlast, Ht. injection Hlast as <-. injection Ht as <- _.
    unfold build in Hb. injection Hb as <- _. cbn -[String.append].
    now simplify_map_eq.
  - specialize (IH self1 item Hlast). now rewrite Ht in IH.
Qed.

(** X23: the builds that [buildBy] triggers share the handler table, which
    every [build] overwrites.  So when the first answer that comes in is a
    404, the error that reaches the callback names the job triggered last,
    whichever job the answer is for. *)
Theorem buildBy_error_names_last_job :
  forall (JSON_parse : string -> option json) (unexpected : response -> error)
         (self : Jenkins) (criteria : option (gmap string jsval)) (t : transport)
         (data : list job_summary) (item : job_summary) (i : nat)
         (hs : gmap string string) (b : string) (later : list (nat * transport)),
    deliver JSON_parse unexpected (opts (dashboard self).1) t = Calls None (Jobs data) ->
    let items := List.filter (criteria_filter (default ∅ criteria)) data in
    last items = Some item ->
    (i < length items)%nat ->
    callbacks (buildBy JSON_parse unexpected self criteria t
                 ((i, Answered (Response 404 hs b)) :: later)).2 =
    [(Some (Error ("Job " +:+ name item +:+ " does not exist")), Undefined)].
Proof.
  intros JSON_parse unexpected self criteria t data item i hs b later Hdash items Hlast Hi.
  rewrite (buildBy_triggered JSON_parse unexpected self criteria t data _ Hdash)
    by (fold items; intros E; rewrite E in Hlast; discriminate).
  fold items. cbn [snd].
  etrans;
    [apply (proj2 (sends_only ((dashboard self).2 :: (trigger (dashboard self).1 items).2) _)) |].
  assert (deliver JSON_parse unexpected (opts (trigger (dashboard self).1 items).1)
            (Answered (Response 404 hs b)) =
          Calls (Some (Error ("Job " +:+ name item +:+ " does not exist"))) Undefined) as Ht.
  { unfold deliver, bag_dispatch. cbn [statusCode].
    now rewrite (trigger_last items _ item Hlast). }
  apply (join_first_error JSON_parse unexpected _ items [] later i _ _ _ Hi Ht
           (not_elem_of_nil _)
           (fun j t' e' d' Hin => False_ind _ (not_elem_of_nil _ Hin)) [] 0%nat []).
  - apply NoDup_nil_2.
  - intros k Hk. now apply elem_of_nil in Hk.
  - reflexivity.
  - apply not_elem_of_nil.
Qed.

Lemma buildBy_error_names_last_job_witness :
  callbacks
    (buildBy (fun _ => Some (DashboardJson (Some [ {| job_name := "job1"; color := "red" |};
                                                   {| job_name := "job2"; color := "red" |} ])))
       (fun _ => Error "unexpected") (new_Jenkins None None) None
       (Answered (Response 200 ∅ "{}"))
       [(0%nat, Answered (Response 404 ∅ EmptyString))]).2 =
  [(Some (Error "Job job2 does not exist"), Undefined)].
Proof.
  apply (buildBy_error_names_last_job
           (fun _ => Some (DashboardJson (Some [ {| job_name := "job1"; color := "red" |};
                                                 {| job_name := "job2"; color := "red" |} ])))
           (fun _ => Error "unexpected") (new_Jenkins None None) None
           (Answered (Response 200 ∅ "{}"))
           [ {| status := Str "FAIL"; name := "job1" |};
             {| status := Str "FAIL"; name := "job2" |} ]
           {| status := Str "FAIL"; name := "job2" |} 0%nat ∅ EmptyString []).
  - vm_compute. reflexivity.
  - reflexivity.
  - vm_compute. lia.
Defined.
